(** * The review archive: front matter, filename inference, markdown, dates

    A shallow embedding of [reviews-list.js] (the list view) and [review.js]
    (the detail view).  JavaScript strings are sequences of UTF-16 code
    units, so a string is a [list N]; the built-in string methods and the
    regular expressions the two scripts use are written out as functions
    over such lists, each next to the expression it stands for. *)

From stdpp Require Import gmap list strings sorting.
From Stdlib Require Import ZArith Strings.Byte DecimalString.

Open Scope N_scope.

(** ** JavaScript strings and the built-ins the scripts call *)

Module JS.

Abbreviation jsstring := (list N).

(** An ASCII literal as code units. *)
Definition lit (s : string) : jsstring :=
  (fun b => Byte.to_N b) <$> String.list_byte_of_string s.

Definition LF : N := 10.
Definition CR : N := 13.

(** ECMAScript LineTerminator: what [.] refuses to match. *)
Definition isLineTerminator (c : N) : bool :=
  (c =? 10) || (c =? 13) || (c =? 0x2028) || (c =? 0x2029).

(** ECMAScript WhiteSpace. *)
Definition isWhiteSpace (c : N) : bool :=
  (c =? 9) || (c =? 11) || (c =? 12) || (c =? 32) || (c =? 0xA0)
  || (c =? 0x1680) || ((0x2000 <=? c) && (c <=? 0x200A))
  || (c =? 0x202F) || (c =? 0x205F) || (c =? 0x3000) || (c =? 0xFEFF).

(** [\s], and the characters [trim] removes. *)
Definition isSpace (c : N) : bool := isWhiteSpace c || isLineTerminator c.

(** [\d] *)
Definition isDigit (c : N) : bool := (48 <=? c) && (c <=? 57).

Definition eqc (a b : N) : bool := (a =? b).

(** [s.startsWith(p)] *)
Fixpoint startsWith (p s : jsstring) : bool :=
  match p, s with
  | [], _ => true
  | _ :: _, [] => false
  | a :: p', b :: s' => eqc a b && startsWith p' s'
  end.

(** [s.indexOf(c)] for a one-character [c]; [None] is the result -1. *)
Fixpoint indexOf (c : N) (s : jsstring) : option nat :=
  match s with
  | [] => None
  | x :: s' => if eqc x c then Some 0%nat else S <$> indexOf c s'
  end.

Fixpoint dropWhile (f : N -> bool) (s : jsstring) : jsstring :=
  match s with
  | [] => []
  | c :: s' => if f c then dropWhile f s' else s
  end.

Definition trimStart (s : jsstring) : jsstring := dropWhile isSpace s.
Definition trimEnd (s : jsstring) : jsstring :=
  reverse (dropWhile isSpace (reverse s)).
(** [s.trim()] *)
Definition trim (s : jsstring) : jsstring := trimEnd (trimStart s).

(** [s.split(sep)] where [sep] matches one character: the result is
    never empty and its pieces hold no separator. *)
Fixpoint splitOn (sep : N -> bool) (s : jsstring) : list jsstring :=
  match s with
  | [] => [[]]
  | x :: s' =>
      if sep x then [] :: splitOn sep s'
      else match splitOn sep s' with
           | [] => [[x]]
           | piece :: more => (x :: piece) :: more
           end
  end.

(** [s.split(c)] for a one-character string [c]. *)
Definition split (c : N) (s : jsstring) : list jsstring :=
  splitOn (fun x => eqc x c) s.

(** [a.join(sep)] *)
Fixpoint join (sep : jsstring) (l : list jsstring) : jsstring :=
  match l with
  | [] => []
  | [x] => x
  | x :: rest => x ++ sep ++ join sep rest
  end.

(** [s.replace(/c/g, r)] for a one-character pattern. *)
Fixpoint replaceChar (c : N) (r : jsstring) (s : jsstring) : jsstring :=
  match s with
  | [] => []
  | x :: s' => (if eqc x c then r else [x]) ++ replaceChar c r s'
  end.

(** [s.replace(/[^...]/g, '')] : keep the characters of a class. *)
Definition keep (f : N -> bool) (s : jsstring) : jsstring :=
  base.filter (fun x => f x = true) s.

(** The lazy [[\s\S]*?] followed by the literal [d]: the shortest [cap]
    with [s = cap ++ d ++ rest]. *)
Fixpoint lazyUntil (d s : jsstring) : option (jsstring * jsstring) :=
  if startsWith d s then Some ([], drop (length d) s)
  else match s with
       | [] => None
       | c :: s' =>
           match lazyUntil d s' with
           | Some (cap, rest) => Some (c :: cap, rest)
           | None => None
           end
       end.

(** [X+?] followed by the literal [d], where [X] is a character class:
    the shortest non-empty run of [ok] characters after which [d] stands. *)
Fixpoint lazySpan (ok : N -> bool) (d s : jsstring) : option jsstring :=
  match s with
  | [] => None
  | c :: s' =>
      if ok c then
        if startsWith d s' then Some [c]
        else (fun cap => c :: cap) <$> lazySpan ok d s'
      else None
  end.

(** [s.replace(/dX+?d/g, otag + '$1' + ctag)]: scan left to right; where
    the pattern matches, emit the tagged capture and resume after the
    match ([skip] counts the characters of the match still to pass over);
    elsewhere copy the character. *)
Fixpoint replaceSpans (ok : N -> bool) (d otag ctag : jsstring)
         (skip : nat) (s : jsstring) : jsstring :=
  match s with
  | [] => []
  | c :: s' =>
      match skip with
      | S k => replaceSpans ok d otag ctag k s'
      | O =>
          match (if startsWith d s then lazySpan ok d (drop (length d) s)
                 else None) with
          | Some cap =>
              otag ++ cap ++ ctag
              ++ replaceSpans ok d otag ctag
                   (length d + length cap + length d - 1) s'
          | None => c :: replaceSpans ok d otag ctag 0 s'
          end
      end
  end.

(** [.] and [[^`]] as character classes. *)
Definition anyButLineTerminator (c : N) : bool := negb (isLineTerminator c).
Definition anyButBacktick (c : N) : bool := negb (eqc c 96).

(** [filename.replace(/\.md$/i, '')] *)
Definition stripMd (filename : jsstring) : jsstring :=
  match reverse filename with
  | d :: m :: dot :: erom =>
      if (eqc dot 46) && ((eqc m 109) || (eqc m 77))
         && ((eqc d 100) || (eqc d 68))
      then reverse erom else filename
  | _ => filename
  end.

(** [`${n}`] for a number that is an integer or NaN ([None]). *)
Definition numberToString (n : option Z) : jsstring :=
  match n with
  | None => lit "NaN"
  | Some z => lit (NilZero.string_of_int (Z.to_int z))
  end.

End JS.
Import JS.


(** ** The parser of front-matter lines, the same text in both scripts *)

Module FrontMatter.

Definition isQuote (c : N) : bool := (c =? 39) || (c =? 34).

(** [rawValue.replace(re, '')] where [re] is the global pattern with two
    alternatives, a quote character (single or double) at [^] and a quote
    character at [$]: each alternative fires on its own, a quote at the
    start and a quote at the end; one character cannot serve both. *)
Definition stripQuotes (rawValue : jsstring) : jsstring :=
  let afterHead :=
    match rawValue with
    | c :: rest => if isQuote c then rest else rawValue
    | [] => []
    end in
  match reverse afterHead with
  | c :: tser => if isQuote c then reverse tser else afterHead
  | [] => afterHead
  end.

(** What the reducer computes from one line: nothing for a line without
    a colon or with an empty key. *)
Definition parseLine (line : jsstring) : option (jsstring * jsstring) :=
  match indexOf 58 line with
  | None => None
  | Some separatorIndex =>
      let key := trim (take separatorIndex line) in
      if bool_decide (key = []) then None
      else
        let rawValue := trim (drop (S separatorIndex) line) in
        let value := stripQuotes rawValue in
        Some (key, value)
  end.

(** [acc[key] = value] on an object made by [{}]: the key [__proto__]
    reaches the inherited setter, which ignores a string. *)
Definition setProperty (acc : gmap (list N) (list N))
           (key value : jsstring) : gmap (list N) (list N) :=
  if bool_decide (key = lit "__proto__") then acc else <[key := value]> acc.

Definition reducer (acc : gmap (list N) (list N)) (line : jsstring)
  : gmap (list N) (list N) :=
  match parseLine line with
  | None => acc
  | Some (key, value) => setProperty acc key value
  end.

(** [block.split('\n').reduce(reducer, {})] *)
Definition parseLines (block : jsstring) : gmap (list N) (list N) :=
  foldl reducer ∅ (split LF block).

(** [meta.name || fallback]: an absent or empty property is falsy. *)
Definition propertyOr (meta : gmap (list N) (list N)) (name : string)
           (fallback : jsstring) : jsstring :=
  match meta !! lit name with
  | Some (c :: v) => c :: v
  | _ => fallback
  end.

End FrontMatter.

(** ** review.js: the detail view *)

Module Review.

Record SplitResult := { frontmatter : jsstring; body : jsstring }.

(** [text.match(/^---\n([\s\S]*?)\n---\n?/)]: the whole match and the
    first group. *)
Definition matchFrontMatter (text : jsstring) : option (jsstring * jsstring) :=
  let opening := lit "---" ++ [LF] in
  let closing := [LF] ++ lit "---" in
  if startsWith opening text then
    match lazyUntil closing (drop (length opening) text) with
    | Some (cap, rest) =>
        let lineBreak := if startsWith [LF] rest then [LF] else [] in
        Some (opening ++ cap ++ closing ++ lineBreak, cap)
    | None => None
    end
  else None.

Definition splitFrontMatter (text : jsstring) : SplitResult :=
  match matchFrontMatter text with
  | None => {| frontmatter := []; body := text |}
  | Some (match0, match1) =>
      {| frontmatter := match1; body := drop (length match0) text |}
  end.

Definition parseFrontMatter (block : jsstring) : gmap (list N) (list N) :=
  if bool_decide (block = []) then ∅ else FrontMatter.parseLines block.

Definition deriveTitleFromFilename (filename : jsstring) : jsstring :=
  match join (lit "_") (drop 1 (split 95 (stripMd filename))) with
  | [] => filename
  | c :: t => c :: t
  end.

Definition deriveDateFromFilename (filename : jsstring) : jsstring :=
  let token := match split 95 filename with
               | t :: _ => t
               | [] => []
               end in
  keep (fun c => isDigit c || eqc c 45) token.

Definition escapeHtml (str : jsstring) : jsstring :=
  replaceChar 62 (lit "&gt;")
    (replaceChar 60 (lit "&lt;")
       (replaceChar 38 (lit "&amp;") str)).

Definition inlineMarkdown (text : jsstring) : jsstring :=
  let result := escapeHtml text in
  (* /\*\*(.+?)\*\*/g *)
  let result := replaceSpans anyButLineTerminator (lit "**")
                  (lit "<strong>") (lit "</strong>") 0 result in
  (* /__(.+?)__/g *)
  let result := replaceSpans anyButLineTerminator (lit "__")
                  (lit "<strong>") (lit "</strong>") 0 result in
  (* /\*(.+?)\*/g *)
  let result := replaceSpans anyButLineTerminator (lit "*")
                  (lit "<em>") (lit "</em>") 0 result in
  (* /_(.+?)_/g *)
  let result := replaceSpans anyButLineTerminator (lit "_")
                  (lit "<em>") (lit "</em>") 0 result in
  (* /`([^`]+)`/g *)
  let result := replaceSpans anyButBacktick (lit "`")
                  (lit "<code>") (lit "</code>") 0 result in
  result.

(** *** The line patterns of [markdownToHtml] *)

(** [rawLine.replace(/\r$/, '')] *)
Definition stripCR (rawLine : jsstring) : jsstring :=
  match reverse rawLine with
  | c :: enil => if eqc c CR then reverse enil else rawLine
  | [] => rawLine
  end.

(** The tail of the heading and list patterns, [\s+] then the group [.*]
    then [$]: at least one
    space character; the group is what follows the run of spaces, and it
    must reach the end of the line without a line terminator. *)
Definition spacesThenRest (s : jsstring) : option jsstring :=
  match s with
  | c :: _ =>
      if isSpace c then
        let rest := dropWhile isSpace s in
        if forallb anyButLineTerminator rest then Some rest else None
      else None
  | [] => None
  end.

Fixpoint countHashes (s : jsstring) : nat :=
  match s with
  | c :: s' => if eqc c 35 then S (countHashes s') else 0%nat
  | [] => 0%nat
  end.

(** [line.match] on the heading pattern, [^] then the group [#{1,6}] then
    the tail: the length of group 1, and group 2. *)
Definition matchHeading (line : jsstring) : option (nat * jsstring) :=
  let level := countHashes line in
  if (1 <=? level)%nat && (level <=? 6)%nat then
    (fun text => (level, text)) <$> spacesThenRest (drop level line)
  else None.

(** [line.match] on the list pattern, [^] then one of [-], [*], [+] then
    the tail: group 1. *)
Definition matchListItem (line : jsstring) : option jsstring :=
  match line with
  | c :: s => if (eqc c 45) || (eqc c 42) || (eqc c 43)
              then spacesThenRest s else None
  | [] => None
  end.

(** [line.replace(/^>\s?/, '')] on a line that begins with [>]. *)
Definition stripQuoteMark (line : jsstring) : jsstring :=
  match line with
  | c :: s =>
      if eqc c 62 then
        match s with
        | w :: s' => if isSpace w then s' else s
        | [] => s
        end
      else line
  | [] => line
  end.

(** *** The renderer: the four variables the closures share *)

Record State := {
  html : list jsstring;
  inCode : bool;
  codeLines : list jsstring;
  listBuffer : list jsstring
}.

Definition initial : State :=
  {| html := []; inCode := false; codeLines := []; listBuffer := [] |}.

Definition push (block : jsstring) (st : State) : State :=
  {| html := html st ++ [block]; inCode := inCode st;
     codeLines := codeLines st; listBuffer := listBuffer st |}.

Definition codeBlock (lines : list jsstring) : jsstring :=
  lit "<pre><code>" ++ escapeHtml (join [LF] lines) ++ lit "</code></pre>".

Definition listBlock (items : list jsstring) : jsstring :=
  lit "<ul>"
  ++ join [] ((fun item => lit "<li>" ++ item ++ lit "</li>") <$> items)
  ++ lit "</ul>".

Definition flushCode (st : State) : State :=
  if inCode st then
    {| html := html st ++ [codeBlock (codeLines st)]; inCode := false;
       codeLines := []; listBuffer := listBuffer st |}
  else st.

Definition flushList (st : State) : State :=
  match listBuffer st with
  | [] => st
  | _ :: _ =>
      {| html := html st ++ [listBlock (listBuffer st)];
         inCode := inCode st; codeLines := codeLines st; listBuffer := [] |}
  end.

Definition headingBlock (level : nat) (text : jsstring) : jsstring :=
  let n := numberToString (Some (Z.of_nat level)) in
  lit "<h" ++ n ++ lit ">" ++ inlineMarkdown text ++ lit "</h" ++ n ++ lit ">".

(** The body of the [forEach] callback. *)
Definition processLine (st : State) (rawLine : jsstring) : State :=
  let line := stripCR rawLine in
  if startsWith (lit "```") line then
    if inCode st then flushCode st
    else {| html := html st; inCode := true; codeLines := codeLines st;
            listBuffer := listBuffer st |}
  else if inCode st then
    {| html := html st; inCode := true;
       codeLines := codeLines st ++ [line]; listBuffer := listBuffer st |}
  else
    match matchHeading line with
    | Some (level, text) => push (headingBlock level text) (flushList st)
    | None =>
        match matchListItem line with
        | Some item =>
            {| html := html st; inCode := inCode st;
               codeLines := codeLines st;
               listBuffer := listBuffer st ++ [inlineMarkdown item] |}
        | None =>
            let st := flushList st in
            if bool_decide (trim line = []) then st
            else if startsWith (lit ">") line then
              push (lit "<blockquote>"
                    ++ inlineMarkdown (stripQuoteMark line)
                    ++ lit "</blockquote>") st
            else push (lit "<p>" ++ inlineMarkdown line ++ lit "</p>") st
        end
    end.

Definition finish (st : State) : jsstring :=
  join [LF] (html (flushCode (flushList st))).

Definition markdownToHtml (markdown : jsstring) : jsstring :=
  finish (foldl processLine initial (split LF markdown)).

End Review.

(** ** The host: what the scripts read from the browser *)

Record Env := {
  (** [new Date(s).getTime()]; [None] is NaN, an invalid date. *)
  Date_parse : jsstring -> option Z;
  (** [getFullYear()], [getMonth()], [getDate()] of a time value. *)
  getFullYear : Z -> Z;
  getMonth : Z -> Z;
  getDate : Z -> Z;
  (** [new Date(y, m, d).getTime()], local midnight; [None] is NaN. *)
  Date_local : Z -> Z -> Z -> option Z;
  (** [new Date().getTime()] *)
  now : Z;
  (** [document.documentElement.lang] *)
  documentLang : jsstring;
  (** [encodeURIComponent(s)]; [None] when it throws. *)
  encodeURIComponent : jsstring -> option jsstring;
  (** The text of the response to [fetch(url)]; [None] when the request
      fails or the response is not ok. *)
  fetchText : jsstring -> option jsstring
}.

(** ** Array.prototype.sort

    ECMAScript leaves the algorithm to the engine and asks for a stable
    sort; the model is the stable insertion sort.  Where the comparator is
    consistent the choice does not show: the sorted, stable arrangement is
    unique ([sorted_stable_unique] below). *)

Module ArraySort.
Section Sort.
Context {A : Type} (comparefn : A -> A -> option Z).

(** SortCompare: a NaN from the comparator counts as +0. *)
Definition sortCompare (x y : A) : Z := default 0%Z (comparefn x y).

(** The sort is stable: [x], which stood before every element of [l],
    moves back only past elements that must precede it. *)
Fixpoint insertSorted (x : A) (l : list A) : list A :=
  match l with
  | [] => [x]
  | y :: l' =>
      if (0 <? sortCompare x y)%Z then y :: insertSorted x l'
      else x :: l
  end.

Definition sort (l : list A) : list A := foldr insertSorted [] l.
End Sort.
End ArraySort.

(** ** reviews-list.js: the list view *)

Module ReviewsList.

Record ReviewMeta := { title : jsstring; date : jsstring; url : jsstring }.

(** [text.match(/^---\n([\s\S]*?)\n---/)]: the first group. *)
Definition matchFrontMatter (text : jsstring) : option jsstring :=
  let opening := lit "---" ++ [LF] in
  let closing := [LF] ++ lit "---" in
  if startsWith opening text then
    fst <$> lazyUntil closing (drop (length opening) text)
  else None.

Definition parseFrontMatter (text : jsstring) : gmap (list N) (list N) :=
  match matchFrontMatter text with
  | None => ∅
  | Some match1 => FrontMatter.parseLines match1
  end.

(** [base.match] on [^\d{4}-\d{2}-\d{2}[-_]] followed by the group [.+]
    and [$]: group 1. *)
Definition matchDatedSlug (base : jsstring) : option jsstring :=
  match base with
  | y1 :: y2 :: y3 :: y4 :: h1 :: m1 :: m2 :: h2 :: d1 :: d2 :: sep
      :: c :: rest =>
      if isDigit y1 && isDigit y2 && isDigit y3 && isDigit y4
         && eqc h1 45 && isDigit m1 && isDigit m2
         && eqc h2 45 && isDigit d1 && isDigit d2
         && (eqc sep 45 || eqc sep 95)
         && forallb anyButLineTerminator (c :: rest)
      then Some (c :: rest) else None
  | _ => None
  end.

(** [base.split('_').slice(1).join('_') || base] *)
Definition afterFirstToken (base : jsstring) : jsstring :=
  match join (lit "_") (drop 1 (split 95 base)) with
  | [] => base
  | c :: t => c :: t
  end.

Definition deriveTitleFromFilename (filename : jsstring) : jsstring :=
  let base := stripMd filename in
  match matchDatedSlug base with
  | Some match1 => match1
  | None => afterFirstToken base
  end.

(** [base.match(/^(\d{4}-\d{2}-\d{2})/)]: group 1. *)
Definition matchDashedDate (base : jsstring) : option jsstring :=
  match base with
  | y1 :: y2 :: y3 :: y4 :: h1 :: m1 :: m2 :: h2 :: d1 :: d2 :: _ =>
      if isDigit y1 && isDigit y2 && isDigit y3 && isDigit y4
         && eqc h1 45 && isDigit m1 && isDigit m2
         && eqc h2 45 && isDigit d1 && isDigit d2
      then Some (take 10 base) else None
  | _ => None
  end.

(** [base.match(/^(\d{8})/)]: group 1. *)
Definition matchCompactDate (base : jsstring) : option jsstring :=
  if (8 <=? length base)%nat && forallb isDigit (take 8 base)
  then Some (take 8 base) else None.

Definition deriveDateFromFilename (filename : jsstring) : jsstring :=
  let base := replaceChar 95 (lit "-") (stripMd filename) in
  match matchDashedDate base with
  | Some match1 => match1
  | None =>
      match matchCompactDate base with
      | Some compact1 => compact1
      | None =>
          let token :=
            match splitOn (fun c => eqc c 95 || eqc c 45) filename with
            | t :: _ => t
            | [] => []
            end in
          keep (fun c => isDigit c || eqc c 45) token
      end
  end.

Definition derivePermalinkFromFilename (filename : jsstring) : jsstring :=
  let base := stripMd filename in
  match matchDatedSlug base with
  | Some match1 => match1
  | None => afterFirstToken base
  end.

(** *** The copy of the two locales *)

Record Copy := {
  today : jsstring;
  day : option Z -> jsstring;
  week : option Z -> jsstring;
  month : option Z -> jsstring;
  year : option Z -> jsstring
}.

Inductive Lang := ko | en.
Inductive Unit := Day | Week | Month | Year.

Definition TEXT (lang : Lang) : Copy :=
  match lang with
  | ko => {| today := [0xC624; 0xB298];
             day := fun n => numberToString n ++ [0xC77C; 32; 0xC804];
             week := fun n => numberToString n ++ [0xC8FC; 32; 0xC804];
             month := fun n => numberToString n ++ [0xB2EC; 32; 0xC804];
             year := fun n => numberToString n ++ [0xB144; 32; 0xC804] |}
  | en => {| today := lit "Today";
             day := fun n => numberToString n ++ lit " days ago";
             week := fun n => numberToString n ++ lit " weeks ago";
             month := fun n => numberToString n ++ lit " months ago";
             year := fun n => numberToString n ++ lit " years ago" |}
  end.

(** [copy[unit]] *)
Definition phrase (copy : Copy) (unit : Unit) : option Z -> jsstring :=
  match unit with
  | Day => day copy
  | Week => week copy
  | Month => month copy
  | Year => year copy
  end.

Section Host.
Context (env : Env).

Definition fetchReviewMetadata (filename : jsstring) : option ReviewMeta :=
  if bool_decide (filename = []) then None
  else
    encoded ← encodeURIComponent env filename;
    text ← fetchText env (lit "reviews/" ++ encoded);
    let frontmatter := parseFrontMatter text in
    let title := FrontMatter.propertyOr frontmatter "title"
                   (deriveTitleFromFilename filename) in
    let date := FrontMatter.propertyOr frontmatter "date"
                  (deriveDateFromFilename filename) in
    let permalink := FrontMatter.propertyOr frontmatter "permalink"
                       (derivePermalinkFromFilename filename) in
    if bool_decide (title = []) || bool_decide (date = [])
       || bool_decide (permalink = [])
    then None
    else
      Some {| title := title; date := date;
              url := lit "review.html?file=" ++ encoded |}.

(** [(a, b) => new Date(b.date) - new Date(a.date)] *)
Definition byDateDescending (a b : ReviewMeta) : option Z :=
  match Date_parse env (date b), Date_parse env (date a) with
  | Some tb, Some ta => Some (tb - ta)%Z
  | _, _ => None
  end.

(** [loadReviews], from the file names [discoverReviewFiles] found. *)
Definition loadReviews (files : list jsstring) : list ReviewMeta :=
  match files with
  | [] => []
  | _ :: _ =>
      let metadata := fetchReviewMetadata <$> files in
      ArraySort.sort byDateDescending (omap id metadata)
  end.

Definition isEightDigits (s : jsstring) : bool :=
  (length s =? 8)%nat && forallb isDigit s.

Definition parseDate (value : jsstring) : option Z :=
  let cleaned := trim value in
  let isoCandidate := replaceChar 47 (lit "-")
                        (replaceChar 46 (lit "-") cleaned) in
  match Date_parse env isoCandidate with
  | Some direct => Some direct
  | None =>
      if isEightDigits cleaned then
        let y := take 4 cleaned in
        let m := take 2 (drop 4 cleaned) in
        let d := take 2 (drop 6 cleaned) in
        Date_parse env (y ++ lit "-" ++ m ++ lit "-" ++ d)
      else None
  end.

Definition relative (n : option Z) (unit : Unit) : jsstring :=
  let tag := match documentLang env with
             | [] => lit "ko"
             | c :: t => c :: t
             end in
  let lang := if startsWith (lit "en") tag then en else ko in
  let copy := TEXT lang in
  phrase copy unit n.

(** [new Date(d.getFullYear(), d.getMonth(), d.getDate())] *)
Definition midnightOf (t : Z) : option Z :=
  Date_local env (getFullYear env t) (getMonth env t) (getDate env t).

(** [Math.floor((startOfToday - target) / 86400000)]; NaN when either
    midnight is an invalid date. *)
Definition diffDaysOf (parsed : Z) : option Z :=
  match midnightOf (now env), midnightOf parsed with
  | Some startOfToday, Some target =>
      Some ((startOfToday - target) `div` 86400000)%Z
  | _, _ => None
  end.

(** The tail of [formatRelativeDate], from [diffDays] on.  A comparison
    with NaN is false, so NaN falls through every test. *)
Definition bucket (diffDays : option Z) : jsstring :=
  match diffDays with
  | None => relative None Year
  | Some dd =>
      if (dd <=? 0)%Z then [0xC624; 0xB298]
      else if (dd <? 7)%Z then relative (Some dd) Day
      else
        let weeks := (dd `div` 7)%Z in
        if (weeks <? 4)%Z then relative (Some weeks) Week
        else
          let months := (dd `div` 30)%Z in
          if (months <? 12)%Z then relative (Some months) Month
          else
            let years := (dd `div` 365)%Z in
            relative (Some years) Year
  end.

Definition formatRelativeDate (value : jsstring) : jsstring :=
  if bool_decide (value = []) then []
  else
    match parseDate value with
    | None => value
    | Some parsed => bucket (diffDaysOf parsed)
    end.

End Host.
End ReviewsList.

(** ** A sample host

    A browser in the UTC time zone whose [Date] reads the ISO date-only
    form [YYYY-MM-DD], serving documents from a table.  The theorems below
    hold for every host; this one supplies concrete runs. *)

Module SampleHost.

Open Scope Z_scope.

(** Days since 1970-01-01 of a proleptic Gregorian date (month 1..12). *)
Definition daysFromCivil (y m d : Z) : Z :=
  let y' := if m <=? 2 then y - 1 else y in
  let era := y' `div` 400 in
  let yoe := y' - era * 400 in
  let mp := if m >? 2 then m - 3 else m + 9 in
  let doy := (153 * mp + 2) `div` 5 + d - 1 in
  let doe := yoe * 365 + yoe `div` 4 - yoe `div` 100 + doy in
  era * 146097 + doe - 719468.

(** Year, month (1..12) and day of a day number. *)
Definition civilFromDays (days : Z) : Z * Z * Z :=
  let z := days + 719468 in
  let era := z `div` 146097 in
  let doe := z - era * 146097 in
  let yoe := (doe - doe `div` 1460 + doe `div` 36524 - doe `div` 146096)
               `div` 365 in
  let doy := doe - (365 * yoe + yoe `div` 4 - yoe `div` 100) in
  let mp := (5 * doy + 2) `div` 153 in
  let d := doy - (153 * mp + 2) `div` 5 + 1 in
  let m := if mp <? 10 then mp + 3 else mp - 9 in
  let y := yoe + era * 400 + (if m <=? 2 then 1 else 0) in
  (y, m, d).

Definition msPerDay : Z := 86400000.

Definition digitsValue (s : jsstring) : Z :=
  foldl (fun acc c => 10 * acc + (Z.of_N c - 48)) 0 s.

Definition parseIsoDate (s : jsstring) : option Z :=
  match ReviewsList.matchDashedDate s with
  | Some _ =>
      if (length s =? 10)%nat then
        let y := digitsValue (take 4 s) in
        let m := digitsValue (take 2 (drop 5 s)) in
        let d := digitsValue (take 2 (drop 8 s)) in
        if (1 <=? m) && (m <=? 12) && (1 <=? d) && (d <=? 31)
        then Some (daysFromCivil y m d * msPerDay) else None
      else None
  | None => None
  end.

Definition utcYear (t : Z) : Z := (civilFromDays (t `div` msPerDay)).1.1.
Definition utcMonth (t : Z) : Z := (civilFromDays (t `div` msPerDay)).1.2 - 1.
Definition utcDate (t : Z) : Z := (civilFromDays (t `div` msPerDay)).2.

(** [new Date(y, m, d)]: years 0..99 mean 1900..1999; the month index
    may overflow into the neighbouring years. *)
Definition utcLocal (y m d : Z) : option Z :=
  let y := if (0 <=? y) && (y <=? 99) then 1900 + y else y in
  let t := (daysFromCivil (y + m `div` 12) (m `mod` 12 + 1) 1 + d - 1)
           * msPerDay in
  if (Z.abs t <=? 8640000000000000) then Some t else None.

Definition hexDigit (n : N) : N := (if n <? 10 then 48 + n else 55 + n)%N.
Definition percent (byte : N) : jsstring :=
  [37; hexDigit (byte / 16); hexDigit (byte mod 16)]%N.

Definition isUnreserved (c : N) : bool :=
  (((48 <=? c) && (c <=? 57)) || ((65 <=? c) && (c <=? 90))
   || ((97 <=? c) && (c <=? 122))
   || bool_decide (c ∈ [45; 95; 46; 33; 126; 42; 39; 40; 41]))%N.

Fixpoint encodeUri (s : jsstring) : option jsstring :=
  match s with
  | [] => Some []
  | c :: s' =>
      (if c <? 0x80 then
         app (if isUnreserved c then [c] else percent c) <$> encodeUri s'
       else if c <? 0x800 then
         app (percent (0xC0 + c / 64) ++ percent (0x80 + c mod 64))
           <$> encodeUri s'
       else if (c <? 0xD800) || (0xE000 <=? c) then
         app (percent (0xE0 + c / 4096) ++ percent (0x80 + (c / 64) mod 64)
              ++ percent (0x80 + c mod 64)) <$> encodeUri s'
       else if c <? 0xDC00 then
         match s' with
         | lo :: s'' =>
             if (0xDC00 <=? lo) && (lo <? 0xE000) then
               let cp := 0x10000 + (c - 0xD800) * 0x400 + (lo - 0xDC00) in
               app (percent (0xF0 + cp / 262144)
                    ++ percent (0x80 + (cp / 4096) mod 64)
                    ++ percent (0x80 + (cp / 64) mod 64)
                    ++ percent (0x80 + cp mod 64)) <$> encodeUri s''
             else None
         | [] => None
         end
       else None)%N
  end.

Fixpoint lookupUrl (docs : list (jsstring * jsstring)) (u : jsstring)
  : option jsstring :=
  match docs with
  | [] => None
  | (k, text) :: rest =>
      if bool_decide (k = u) then Some text else lookupUrl rest u
  end.

Definition host (today : Z * Z * Z) (lang : jsstring)
           (docs : list (jsstring * jsstring)) : Env :=
  {| Date_parse := parseIsoDate;
     getFullYear := utcYear; getMonth := utcMonth; getDate := utcDate;
     Date_local := utcLocal;
     now := daysFromCivil today.1.1 today.1.2 today.2 * msPerDay
            + 45296789;
     documentLang := lang;
     encodeURIComponent := encodeUri;
     fetchText := lookupUrl docs |}.

(** Three reviews, listed oldest, newest, middle. *)
Definition threeReviews : list (jsstring * jsstring) :=
  [ (lit "reviews/2024-01-01_first.md", lit "No front matter here.");
    (lit "reviews/march.md",
     lit "---" ++ [LF] ++ lit "title: 'March'" ++ [LF]
     ++ lit "date: 2024-03-01" ++ [LF] ++ lit "---" ++ [LF] ++ lit "Body");
    (lit "reviews/2024-02-01-second.md", lit "# Second") ]%N.


End SampleHost.

(** ** reviews-list.js: finding the review files *)

Module Discovery.

(** [/\.md$/i.test(s)] *)
Definition endsWithMd (s : jsstring) : bool :=
  match reverse s with
  | d :: m :: dot :: _ =>
      (eqc dot 46) && ((eqc m 109) || (eqc m 77)) && ((eqc d 100) || (eqc d 68))
  | _ => false
  end.

(** [s.split('/').pop()] *)
Definition lastSegment (s : jsstring) : jsstring :=
  default [] (last (split 47 s)).

(** A letter of a pattern under the [i] flag: itself or its capital. *)
Definition eqLetter (lower c : N) : bool := eqc c lower || eqc c (lower - 32).

Fixpoint takeWhile (f : N -> bool) (s : jsstring) : jsstring :=
  match s with
  | [] => []
  | c :: s' => if f c then c :: takeWhile f s' else []
  end.

(** The pattern [href=], a double quote, the group of one or more
    characters other than a double quote that ends in [.md], a double
    quote; flag [i]; tried at the start of [s].  The group is the whole run
    up to the next double quote: a shorter one would not be followed by the
    quote. *)
Definition matchHrefAt (s : jsstring) : option jsstring :=
  match s with
  | h :: r :: e :: f :: eq :: q :: rest =>
      if eqLetter 104 h && eqLetter 114 r && eqLetter 101 e && eqLetter 102 f
         && eqc eq 61 && eqc q 34
      then
        let run := takeWhile (fun c => negb (eqc c 34)) rest in
        if startsWith [34] (drop (length run) rest)
           && (4 <=? length run)%nat && endsWithMd run
        then Some run else None
      else None
  | _ => None
  end.

(** The [regex.exec] loop of the fallback: every match from left to right,
    the search resuming after each match ([skip] counts the characters of
    the match still to pass over); each group gives its last segment. *)
Fixpoint scanHrefs (skip : nat) (s : jsstring) : list jsstring :=
  match s with
  | [] => []
  | c :: s' =>
      match skip with
      | S k => scanHrefs k s'
      | O =>
          match matchHrefAt s with
          | Some run => lastSegment run :: scanHrefs (6 + length run) s'
          | None => scanHrefs 0 s'
          end
      end
  end.

(** [Array.from(new Set(files))]: a set keeps the order of first
    insertion. *)
Definition dedupe (files : list jsstring) : list jsstring :=
  foldl (fun seen x => if bool_decide (x ∈ seen) then seen else seen ++ [x])
        [] files.

Section Dom.
(** The [href] attributes of the [a[href]] elements of the parsed text, in
    document order; [None] when [DOMParser] throws. *)
Context (anchorHrefs : jsstring -> option (list jsstring)).

Definition fromAnchors (html : jsstring) : list jsstring :=
  match anchorHrefs html with
  | Some hrefs =>
      lastSegment <$> base.filter (fun href => endsWithMd href = true) hrefs
  | None => []
  end.

Definition extractMarkdownLinks (html : jsstring) : list jsstring :=
  let files := fromAnchors html in
  let files := match files with
               | [] => scanHrefs 0 html
               | _ :: _ => files
               end in
  dedupe files.

Definition discoverReviewFiles (env : Env) : list jsstring :=
  match fetchText env (lit "reviews/") with
  | Some html => extractMarkdownLinks html
  | None => []
  end.

(** [loadReviews] with its own discovery. *)
Definition loadReviews (env : Env) : list ReviewsList.ReviewMeta :=
  ReviewsList.loadReviews env (discoverReviewFiles env).

End Dom.
End Discovery.

(** ** review.js: the page around the renderer

    The page is written to, never read: the writes are kept as a list of
    effects in the order the script performs them. *)

Module DetailPage.

Inductive Effect :=
| SetTextContent (id value : jsstring)
| SetDisplay (id value : jsstring)
| SetInnerHTML (id html : jsstring)
| SetDocumentTitle (value : jsstring).

(** How [initReviewPage] ends: it returns, or an exception leaves it. *)
Inductive Outcome := Returned | Threw.

(** The two messages of [showError]. *)
Definition fileNotFound : jsstring :=
  [0xD30C; 0xC77C; 0xC744; 32; 0xCC3E; 0xC744; 32; 0xC218; 32;
   0xC5C6; 0xC5B4; 0xC694; 46].
Definition loadFailed : jsstring :=
  [0xB9AC; 0xBDF0; 0xB97C; 32; 0xBD88; 0xB7EC; 0xC624; 0xC9C0; 32;
   0xBABB; 0xD588; 0xC5B4; 0xC694; 46].

Section Page.
Context (env : Env).
(** [document.getElementById(id)] finds an element. *)
Context (present : jsstring -> bool).
(** [new URLSearchParams(window.location.search).get('file')] *)
Context (fileParam : option jsstring).

Definition setText (id value : jsstring) : list Effect :=
  if present id && negb (bool_decide (value = []))
  then [SetTextContent id value] else [].

Definition showError (message : jsstring) : list Effect :=
  if present (lit "review-error")
  then [SetTextContent (lit "review-error") message;
        SetDisplay (lit "review-error") (lit "block")]
  else [].

Definition fetchMarkdown (filename : jsstring) : list Effect * option jsstring :=
  match encodeURIComponent env filename with
  | None => (showError loadFailed, None)
  | Some encoded =>
      match fetchText env (lit "reviews/" ++ encoded) with
      | None => (showError loadFailed, None)
      | Some text => ([], Some text)
      end
  end.

Definition renderHeader (meta : gmap (list N) (list N)) (filename : jsstring)
  : list Effect :=
  let title := FrontMatter.propertyOr meta "title"
                 (Review.deriveTitleFromFilename filename) in
  let date := FrontMatter.propertyOr meta "date"
                (Review.deriveDateFromFilename filename) in
  let author := FrontMatter.propertyOr meta "author" [] in
  let year := FrontMatter.propertyOr meta "publication_year" [] in
  let metaParts :=
    (if bool_decide (author = []) then [] else [author])
    ++ (if bool_decide (year = []) then []
        else [[0xCD9C; 0xAC04; 32] ++ year]) in
  [SetDocumentTitle title]
  ++ setText (lit "review-title") title
  ++ setText (lit "review-date") date
  ++ match metaParts with
     | [] => []
     | _ :: _ => setText (lit "review-meta") (join [32; 0xB7; 32] metaParts)
     end.

(** A missing container makes the assignment to [innerHTML] throw. *)
Definition renderContent (markdown : jsstring) : list Effect * Outcome :=
  if present (lit "review-content")
  then ([SetInnerHTML (lit "review-content") (Review.markdownToHtml markdown)],
        Returned)
  else ([], Threw).

Definition initReviewPage : list Effect * Outcome :=
  match fileParam with
  | None | Some [] => (showError fileNotFound, Returned)
  | Some filename =>
      let (shown, fetched) := fetchMarkdown filename in
      match fetched with
      | None | Some [] => (shown, Returned)
      | Some text =>
          let r := Review.splitFrontMatter text in
          let metadata := Review.parseFrontMatter (Review.frontmatter r) in
          let header := renderHeader metadata filename in
          let (content, outcome) := renderContent (Review.body r) in
          (shown ++ header ++ content, outcome)
      end
  end.

End Page.

(** The element an effect writes to; the document title has none. *)
Definition target (e : Effect) : option jsstring :=
  match e with
  | SetTextContent id _ | SetDisplay id _ | SetInnerHTML id _ => Some id
  | SetDocumentTitle _ => None
  end.

End DetailPage.

(** ** The vocabulary of the properties *)

Module Vocabulary.
Import Review ReviewsList FrontMatter.

(** A fence line, as [processLine] tests it. *)
Definition fence (rawLine : jsstring) : bool :=
  startsWith (lit "```") (stripCR rawLine).

(** What the two flushes at the end of the input still emit. *)
Definition pendingList (st : State) : list jsstring :=
  match listBuffer st with
  | [] => []
  | _ :: _ => [listBlock (listBuffer st)]
  end.

Definition pendingCode (st : State) : list jsstring :=
  if inCode st then [codeBlock (codeLines st)] else [].

(** Outside a code block the code buffer is empty. *)
Definition codeBufferIdle (st : State) : Prop :=
  inCode st = false -> codeLines st = [].

(** A character that is neither a markup delimiter nor a line
    terminator. *)
Definition plainChar (c : N) : bool :=
  negb (eqc c 42 || eqc c 95 || eqc c 96 || isLineTerminator c).

(** The active locale: English when the page language begins with [en],
    Korean otherwise. *)
Definition activeLang (env : Env) : Lang :=
  if startsWith (lit "en") (documentLang env) then en else ko.

(** The rule in the specification's words: one pair of enclosing quote
    characters goes only when both ends carry the same quote character. *)
Definition stripMatchingPair (v : jsstring) : jsstring :=
  match v with
  | q :: rest =>
      match reverse rest with
      | q' :: tser => if isQuote q && eqc q q' then reverse tser else v
      | [] => v
      end
  | [] => []
  end.

(** The text after the first underscore, empty when there is none. *)
Definition afterUnderscore (base : jsstring) : jsstring :=
  match indexOf 95 base with
  | Some i => drop (S i) base
  | None => []
  end.

(** Only the digits 0 to 9. *)
Definition allDigits (s : jsstring) : Prop :=
  Forall (fun c => isDigit c = true) s.



(** The records that survive [filter(Boolean)], in the order of the files. *)
Definition retained (env : Env) (files : list jsstring) : list ReviewMeta :=
  omap id (fetchReviewMetadata env <$> files).



(** An effect on the error element of the detail page. *)
Definition onError (e : DetailPage.Effect) : Prop :=
  DetailPage.target e = Some (lit "review-error").

(** A renderer state outside code with nothing buffered. *)
Definition settled (st : State) : Prop :=
  inCode st = false /\ listBuffer st = [].

(** A line that is plain running text: it holds no line terminator and
    begins with a character that is neither white space nor one of the
    markers of a fence, a heading, a list item or a quote. *)
Definition ordinaryLine (line : jsstring) : Prop :=
  Forall (fun c => isLineTerminator c = false) line
  /\ exists c rest,
       line = c :: rest /\ isSpace c = false
       /\ c <> 96 /\ c <> 35 /\ c <> 45 /\ c <> 42 /\ c <> 43 /\ c <> 62.

(** What [escapeHtml] makes of one character. *)
Definition escapeChar (c : N) : jsstring :=
  if eqc c 38 then lit "&amp;"
  else if eqc c 60 then lit "&lt;"
  else if eqc c 62 then lit "&gt;"
  else [c].

(** The way back from escaped text: the three entities read as the
    characters they stand for.  [skip] counts the characters of an entity
    still to pass over. *)
Fixpoint unescapeHtml (skip : nat) (s : jsstring) : jsstring :=
  match s with
  | [] => []
  | c :: s' =>
      match skip with
      | S k => unescapeHtml k s'
      | O =>
          if startsWith (lit "&amp;") s then 38 :: unescapeHtml 4 s'
          else if startsWith (lit "&lt;") s then 60 :: unescapeHtml 3 s'
          else if startsWith (lit "&gt;") s then 62 :: unescapeHtml 3 s'
          else c :: unescapeHtml 0 s'
      end
  end.

(** A character that is none of the markup delimiters. *)
Definition noDelimiter (c : N) : Prop := c <> 42 /\ c <> 95 /\ c <> 96.

(** A digit or a dash. *)
Definition dateChar (c : N) : Prop := isDigit c = true \/ c = 45.

(** [d] stands somewhere in [s]. *)
Definition occurs (d s : jsstring) : Prop :=
  exists pre suf, s = pre ++ d ++ suf.

(** The closing delimiter as the patterns have it: a line break, then
    three dashes. *)
Definition closingDelimiter : jsstring := [LF] ++ lit "---".

(** A document put together from a front-matter block and a body. *)
Definition assemble (block body : jsstring) : jsstring :=
  lit "---" ++ [LF] ++ block ++ closingDelimiter ++ [LF] ++ body.

End Vocabulary.
Import Vocabulary.

(** Closes [c ∉ l] on a literal. *)
Ltac absent := apply (bool_decide_unpack _); vm_compute; exact I.

(** * Properties *)

(** ** Strings *)

Section StringFacts.
Implicit Types (s p d cap rest : jsstring) (c : N).

Lemma eqc_true a b : eqc a b = true <-> a = b.
Proof. unfold eqc. apply N.eqb_eq. Qed.

Lemma startsWith_split p s :
  startsWith p s = true -> s = p ++ drop (length p) s.
Proof.
  revert s; induction p as [|a p IH]; intros [|b s] H; simpl in *;
    try done.
  apply andb_true_iff in H as [Hab Hp]. apply eqc_true in Hab as ->.
  f_equal. by apply IH.
Qed.

Lemma startsWith_app p s : startsWith p (p ++ s) = true.
Proof.
  induction p as [|a p IH]; simpl; [done|].
  rewrite IH, andb_true_r. by apply eqc_true.
Qed.

Lemma lazyUntil_sound d s cap rest :
  lazyUntil d s = Some (cap, rest) -> s = cap ++ d ++ rest.
Proof.
  revert cap rest; induction s as [|c s IH]; intros cap rest; simpl.
  - destruct (startsWith d []) eqn:E; [|done].
    intros [= <- <-]. by apply startsWith_split in E.
  - destruct (startsWith d (c :: s)) eqn:E.
    + intros [= <- <-]. by apply startsWith_split in E.
    + destruct (lazyUntil d s) as [[cap' rest']|] eqn:L; [|done].
      intros [= <- <-]. simpl. f_equal. by apply IH.
Qed.

Lemma forallb_all (f : N -> bool) s :
  forallb f s = true <-> Forall (fun c => f c = true) s.
Proof.
  induction s as [|c s IH]; simpl.
  - split; [constructor|done].
  - rewrite andb_true_iff, Forall_cons. by rewrite IH.
Qed.

Lemma splitOn_nonempty sep s : splitOn sep s <> [].
Proof.
  destruct s as [|x s]; simpl; [done|].
  destruct (sep x); [done|]. by destruct (splitOn sep s).
Qed.

End StringFacts.

(** ** DocumentSplitter *)

Lemma matchFrontMatter_opening text m :
  Review.matchFrontMatter text = Some m ->
  startsWith (lit "---" ++ [LF]) text = true.
Proof.
  unfold Review.matchFrontMatter.
  by destruct (startsWith (lit "---" ++ [LF]) text).
Qed.

Lemma matchFrontMatter_prefix text match0 match1 :
  Review.matchFrontMatter text = Some (match0, match1) ->
  exists lineBreak,
    (lineBreak = [] \/ lineBreak = [LF])
    /\ match0 = lit "---" ++ [LF] ++ match1 ++ [LF] ++ lit "---" ++ lineBreak
    /\ text = match0 ++ drop (length match0) text.
Proof.
  unfold Review.matchFrontMatter.
  destruct (startsWith (lit "---" ++ [LF]) text) eqn:Hopen; [|done].
  destruct (lazyUntil _ _) as [[cap rest]|] eqn:Hlazy; [|done].
  cbv zeta. intros Hsome. apply (inj Some), pair_equal_spec in Hsome as [<- <-].
  apply startsWith_split in Hopen. apply lazyUntil_sound in Hlazy.
  exists (if startsWith [LF] rest then [LF] else []). split; [|split].
  - destruct (startsWith [LF] rest); auto.
  - by rewrite <- !app_assoc.
  - assert (Hrest : exists tail,
             rest = (if startsWith [LF] rest then [LF] else []) ++ tail).
    { destruct (startsWith [LF] rest) eqn:E; [|by exists rest].
      apply startsWith_split in E. by eexists. }
    destruct Hrest as [tail Hrest].
    set (lb := if startsWith [LF] rest then [LF] else []) in *.
    set (opening := lit "---" ++ [LF]) in *.
    set (closing := [LF] ++ lit "---") in *.
    assert (Htext : text = (opening ++ cap ++ closing ++ lb) ++ tail).
    { rewrite Hopen, Hlazy, Hrest. by rewrite <- !app_assoc. }
    rewrite Htext at 2. by rewrite drop_app_length.
Qed.

(** C5.  When the first line of the text is not exactly [---], the split
    is [{frontmatter: '', body: text}]: empty front matter and the whole
    text, unchanged, as body.  [splitFrontMatter] is a total function, so it
    yields a result on every text and has no failure. *)
Theorem split_without_opening_delimiter (text : jsstring) :
  head (split LF text) <> Some (lit "---") ->
  Review.splitFrontMatter text
  = {| Review.frontmatter := []; Review.body := text |}.
Proof.
  intros Hfirst. unfold Review.splitFrontMatter.
  destruct (Review.matchFrontMatter text) as [[m0 m1]|] eqn:Hm; [|done].
  exfalso. apply Hfirst.
  apply matchFrontMatter_opening, startsWith_split in Hm.
  rewrite Hm. simpl. unfold split. simpl.
  pose proof (splitOn_nonempty (fun x => eqc x LF) (drop 4 text)) as Hne.
  by destruct (splitOn _ (drop 4 text)).
Qed.

Lemma split_without_opening_delimiter_witness :
  Review.splitFrontMatter (lit "# Notes" ++ [LF] ++ lit "---" ++ [LF] ++ lit "x")
  = {| Review.frontmatter := [];
       Review.body := lit "# Notes" ++ [LF] ++ lit "---" ++ [LF] ++ lit "x" |}.
Proof.
  apply split_without_opening_delimiter. vm_compute. discriminate.
Defined.

(** C10.  The body of the split is a suffix of the input, character for
    character: either nothing was recognized and the body is the text, or
    the text is the matched prefix (opening delimiter line, front matter,
    closing delimiter, at most one line break) followed by the body. *)
Theorem split_body_is_suffix (text : jsstring) :
  let r := Review.splitFrontMatter text in
  Review.body r `suffix_of` text
  /\ (r = {| Review.frontmatter := []; Review.body := text |}
      \/ exists lineBreak,
           (lineBreak = [] \/ lineBreak = [LF])
           /\ text = lit "---" ++ [LF] ++ Review.frontmatter r ++ [LF]
                     ++ lit "---" ++ lineBreak ++ Review.body r).
Proof.
  unfold Review.splitFrontMatter.
  destruct (Review.matchFrontMatter text) as [[m0 m1]|] eqn:Hm; simpl.
  - destruct (matchFrontMatter_prefix _ _ _ Hm) as (lb & Hlb & Hm0 & Htext).
    split.
    + exists m0. exact Htext.
    + right. exists lb. split; [done|].
      rewrite Htext at 1. rewrite Hm0 at 1. by rewrite <- !app_assoc.
  - split; [done | by left].
Qed.

(** ** MarkdownRenderer: the block level *)

Section Renderer.
Import Review.

Lemma finish_flushes st :
  finish st = join [LF] (html st ++ pendingList st ++ pendingCode st).
Proof.
  unfold finish, flushCode, flushList, pendingList, pendingCode.
  destruct st as [h c cl lb]; simpl.
  destruct lb as [|item lb]; destruct c; simpl;
    by rewrite <- ?app_assoc, ?app_nil_r.
Qed.

Lemma processLine_idle st rawLine :
  codeBufferIdle st -> codeBufferIdle (processLine st rawLine).
Proof.
  unfold codeBufferIdle, processLine. intros Hidle.
  destruct (startsWith (lit "```") (stripCR rawLine)).
  - destruct (inCode st) eqn:Hc; unfold flushCode; rewrite ?Hc; simpl; done.
  - destruct (inCode st) eqn:Hc; [done|].
    assert (Hfl : codeLines (flushList st) = [] /\ inCode (flushList st) = false).
    { unfold flushList. destruct (listBuffer st); simpl; auto. }
    destruct Hfl as [Hfl1 Hfl2].
    destruct (matchHeading (stripCR rawLine)) as [[level text]|];
      [simpl; auto|].
    destruct (matchListItem (stripCR rawLine)); [simpl; auto|].
    destruct (bool_decide (trim (stripCR rawLine) = [])); [auto|].
    destruct (startsWith (lit ">") (stripCR rawLine)); simpl; auto.
Qed.

Lemma foldl_processLine_idle lines st :
  codeBufferIdle st -> codeBufferIdle (foldl processLine st lines).
Proof.
  revert st; induction lines as [|l lines IH]; intros st H; simpl; [done|].
  by apply IH, processLine_idle.
Qed.

Lemma processLine_in_code st rawLine :
  inCode st = true -> fence rawLine = false ->
  processLine st rawLine
  = {| html := html st; inCode := true;
       codeLines := codeLines st ++ [stripCR rawLine];
       listBuffer := listBuffer st |}.
Proof.
  unfold fence, processLine. intros Hc Hf. by rewrite Hf, Hc.
Qed.

Lemma foldl_in_code lines st :
  inCode st = true -> Forall (fun l => fence l = false) lines ->
  foldl processLine st lines
  = {| html := html st; inCode := true;
       codeLines := codeLines st ++ (stripCR <$> lines);
       listBuffer := listBuffer st |}.
Proof.
  revert st; induction lines as [|l lines IH]; intros st Hc Hall; simpl.
  - rewrite app_nil_r. destruct st; simpl in *; by subst.
  - apply Forall_cons in Hall as [Hl Hall].
    rewrite (processLine_in_code _ _ Hc Hl).
    rewrite IH by done. simpl. by rewrite <- app_assoc.
Qed.

Lemma processLine_opens st rawLine :
  inCode st = false -> fence rawLine = true ->
  processLine st rawLine
  = {| html := html st; inCode := true; codeLines := codeLines st;
       listBuffer := listBuffer st |}.
Proof.
  unfold fence, processLine. intros Hc Hf. by rewrite Hf, Hc.
Qed.

Lemma matchListItem_first line item :
  matchListItem line = Some item ->
  startsWith (lit "```") line = false /\ matchHeading line = None.
Proof.
  destruct line as [|c s]; [done|]. unfold matchListItem.
  destruct (eqc c 45 || eqc c 42 || eqc c 43) eqn:E; [|done]. intros _.
  assert (Hc : c = 45 \/ c = 42 \/ c = 43).
  { rewrite !orb_true_iff, !eqc_true in E. tauto. }
  split.
  - change (lit "```") with [96; 96; 96]. simpl.
    destruct Hc as [->|[->| ->]]; done.
  - unfold matchHeading. simpl.
    destruct Hc as [->|[->| ->]]; done.
Qed.

Lemma processLine_list_item st rawLine item :
  inCode st = false -> matchListItem (stripCR rawLine) = Some item ->
  processLine st rawLine
  = {| html := html st; inCode := false; codeLines := codeLines st;
       listBuffer := listBuffer st ++ [inlineMarkdown item] |}.
Proof.
  intros Hc Hitem. unfold processLine.
  destruct (matchListItem_first _ _ Hitem) as [-> ->].
  by rewrite Hc, Hitem.
Qed.

(** A run of list-item lines only grows the list buffer. *)
Lemma foldl_list_items lines items st :
  inCode st = false ->
  Forall2 (fun l item => matchListItem (stripCR l) = Some item) lines items ->
  foldl processLine st lines
  = {| html := html st; inCode := false; codeLines := codeLines st;
       listBuffer := listBuffer st ++ (inlineMarkdown <$> items) |}.
Proof.
  intros Hc Hall. revert st Hc.
  induction Hall as [|l item lines items Hl Hall IH]; intros st Hc; simpl.
  - rewrite app_nil_r. destruct st; simpl in *; by subst.
  - rewrite (processLine_list_item _ _ _ Hc Hl).
    rewrite IH by done. simpl. by rewrite <- app_assoc.
Qed.

End Renderer.

(** C6.  At the end of the input the renderer flushes the pending list
    buffer and then the pending code buffer: whatever state the lines left,
    the output is the blocks emitted so far, then the buffered list (if
    any), then the buffered code (if a fence is open).  Hence a fence that
    is never closed still yields its code block, after any list pending
    when it opened; and the text made of a fence line and the line [foo]
    renders to one code block holding [foo]. *)
Theorem unclosed_fence_is_emitted :
  (forall st,
     Review.finish st
     = join [LF] (Review.html st ++ pendingList st ++ pendingCode st))
  /\ (forall markdown before opener inside,
        split LF markdown = before ++ opener :: inside ->
        Review.inCode (foldl Review.processLine Review.initial before) = false ->
        fence opener = true ->
        Forall (fun l => fence l = false) inside ->
        let st := foldl Review.processLine Review.initial before in
        Review.markdownToHtml markdown
        = join [LF] (Review.html st ++ pendingList st
                     ++ [Review.codeBlock (Review.stripCR <$> inside)]))
  /\ Review.markdownToHtml (lit "```" ++ [LF] ++ lit "foo")
     = lit "<pre><code>foo</code></pre>".
Proof.
  split; [exact finish_flushes|]. split; [|by vm_compute].
  intros markdown before opener inside Hsplit Hc Hopen Hinside.
  set (st := foldl Review.processLine Review.initial before) in *.
  unfold Review.markdownToHtml. rewrite Hsplit, foldl_app. fold st.
  change (foldl Review.processLine st (opener :: inside))
    with (foldl Review.processLine (Review.processLine st opener) inside).
  rewrite (processLine_opens _ _ Hc Hopen).
  rewrite foldl_in_code by done. rewrite finish_flushes. simpl.
  assert (Hidle : Review.codeLines st = []).
  { apply (foldl_processLine_idle before Review.initial); [done|exact Hc]. }
  rewrite Hidle. done.
Qed.

Lemma unclosed_fence_is_emitted_witness :
  Review.markdownToHtml
    (lit "- a" ++ [LF] ++ lit "```js" ++ [LF] ++ lit "x < 1" ++ [LF] ++ lit "y")
  = lit "<ul><li>a</li></ul>" ++ [LF]
    ++ lit "<pre><code>x &lt; 1" ++ [LF] ++ lit "y</code></pre>".
Proof.
  rewrite (proj1 (proj2 unclosed_fence_is_emitted) _
             [lit "- a"] (lit "```js") [lit "x < 1"; lit "y"]).
  - by vm_compute.
  - by vm_compute.
  - by vm_compute.
  - by vm_compute.
  - repeat constructor.
Defined.

(** C9.  Consecutive list-item lines are buffered and come out together as
    one unordered list.  Outside a code block a run of list-item lines
    emits nothing and appends one inline-formatted item per line to the
    list buffer; the flush of a non-empty buffer emits a single [<ul>]
    holding all of it.  So a text whose lines are all list items renders to
    a single [<ul>] with one [<li>] per line, and the text of the two lines
    [- a] and [- b] renders to exactly one [<ul>] with two [<li>]. *)
Theorem list_items_group_into_one_list :
  (forall st lines items,
     Review.inCode st = false ->
     Forall2 (fun l item => Review.matchListItem (Review.stripCR l) = Some item)
             lines items ->
     foldl Review.processLine st lines
     = {| Review.html := Review.html st; Review.inCode := false;
          Review.codeLines := Review.codeLines st;
          Review.listBuffer :=
            Review.listBuffer st ++ (Review.inlineMarkdown <$> items) |})
  /\ (forall st,
        Review.listBuffer st <> [] ->
        Review.flushList st
        = {| Review.html :=
               Review.html st ++ [Review.listBlock (Review.listBuffer st)];
             Review.inCode := Review.inCode st;
             Review.codeLines := Review.codeLines st;
             Review.listBuffer := [] |})
  /\ (forall markdown items,
        items <> [] ->
        Forall2 (fun l item => Review.matchListItem (Review.stripCR l) = Some item)
                (split LF markdown) items ->
        Review.markdownToHtml markdown
        = Review.listBlock (Review.inlineMarkdown <$> items))
  /\ Review.markdownToHtml (lit "- a" ++ [LF] ++ lit "- b")
     = lit "<ul><li>a</li><li>b</li></ul>".
Proof.
  split; [intros st lines items; apply foldl_list_items|].
  split; [|split; [|by vm_compute]].
  - intros st Hne. unfold Review.flushList.
    by destruct (Review.listBuffer st).
  - intros markdown items Hne Hall. unfold Review.markdownToHtml.
    rewrite (foldl_list_items _ _ Review.initial eq_refl Hall), finish_flushes.
    unfold pendingList, pendingCode. simpl.
    destruct items as [|item items]; [done|]. by simpl.
Qed.

Lemma list_items_group_into_one_list_witness :
  Review.markdownToHtml (lit "* one" ++ [LF] ++ lit "+  **two**" ++ [LF] ++ lit "- 3")
  = lit "<ul><li>one</li><li><strong>two</strong></li><li>3</li></ul>".
Proof.
  rewrite (proj1 (proj2 (proj2 list_items_group_into_one_list)) _
             [lit "one"; lit "**two**"; lit "3"]).
  - by vm_compute.
  - done.
  - repeat constructor.
Defined.

(** ** MarkdownRenderer: inline formatting *)

Section Inline.
Import Review.

Lemma replaceChar_app c r s t :
  replaceChar c r (s ++ t) = replaceChar c r s ++ replaceChar c r t.
Proof.
  induction s as [|x s IH]; simpl; [done|].
  by rewrite IH, app_assoc.
Qed.

Lemma replaceChar_Forall (P : N -> Prop) c r s :
  Forall P r -> Forall (fun x => x <> c -> P x) s ->
  Forall P (replaceChar c r s).
Proof.
  intros Hr Hs.
  induction Hs as [|x s Hx Hs IH]; simpl; [constructor|].
  apply Forall_app. split; [|exact IH].
  destruct (eqc x c) eqn:E; [exact Hr|].
  constructor; [|constructor]. apply Hx. intros ->.
  by rewrite (proj2 (eqc_true c c) eq_refl) in E.
Qed.

Lemma replaceChar_nonempty c r s :
  r <> [] -> s <> [] -> replaceChar c r s <> [].
Proof.
  intros Hr Hs. destruct s as [|x s]; [done|]. simpl.
  destruct (eqc x c); [|done]. by destruct r.
Qed.

Lemma escapeHtml_app s t : escapeHtml (s ++ t) = escapeHtml s ++ escapeHtml t.
Proof. unfold escapeHtml. by rewrite !replaceChar_app. Qed.

Lemma escapeHtml_no_angle text :
  Forall (fun c => c <> 60 /\ c <> 62) (escapeHtml text).
Proof.
  unfold escapeHtml. apply replaceChar_Forall.
  { repeat constructor; done. }
  eapply Forall_impl.
  - apply (replaceChar_Forall (fun c => c <> 60)); [repeat constructor; done|].
    apply Forall_forall. auto.
  - simpl. auto.
Qed.

Lemma escapeHtml_plain x :
  Forall (fun c => plainChar c = true) x ->
  Forall (fun c => plainChar c = true) (escapeHtml x).
Proof.
  intros Hx. unfold escapeHtml.
  repeat (apply replaceChar_Forall; [repeat constructor|];
          eapply Forall_impl; [|by intros ? H ?; exact H]).
  exact Hx.
Qed.

Lemma escapeHtml_nonempty x : x <> [] -> escapeHtml x <> [].
Proof.
  intros Hx. unfold escapeHtml. by repeat apply replaceChar_nonempty.
Qed.

Lemma lazySpan_exact ok h d' y rest :
  y <> [] -> Forall (fun c => ok c = true /\ c <> h) y ->
  lazySpan ok (h :: d') (y ++ (h :: d') ++ rest) = Some y.
Proof.
  induction y as [|c y IH]; [done|]. intros _ Hall.
  apply Forall_cons in Hall as [[Hok _] Hall].
  rewrite <- app_comm_cons. cbn [lazySpan]. rewrite Hok.
  destruct y as [|c' y].
  - rewrite app_nil_l. by rewrite (startsWith_app (h :: d') rest).
  - assert (Hc' : eqc h c' = false).
    { apply Forall_cons in Hall as [[_ Hne] _].
      destruct (eqc h c') eqn:E; [|done]. by apply eqc_true in E. }
    rewrite IH by done.
    rewrite <- app_comm_cons. cbn [startsWith]. by rewrite Hc'.
Qed.

Lemma replaceSpans_skip ok d otag ctag a b :
  replaceSpans ok d otag ctag (length a) (a ++ b)
  = replaceSpans ok d otag ctag 0 b.
Proof. induction a as [|x a IH]; [done|]. exact IH. Qed.

Lemma replaceSpans_absent ok h d' otag ctag s :
  Forall (fun c => c <> h) s ->
  replaceSpans ok (h :: d') otag ctag 0 s = s.
Proof.
  induction 1 as [|x s Hx Hs IH]; [done|].
  assert (E : eqc h x = false).
  { destruct (eqc h x) eqn:E; [|done]. by apply eqc_true in E. }
  cbn [replaceSpans startsWith]. rewrite E. cbn [andb]. by rewrite IH.
Qed.

Lemma replaceSpans_one ok h d' otag ctag y :
  y <> [] -> Forall (fun c => ok c = true /\ c <> h) y ->
  replaceSpans ok (h :: d') otag ctag 0 ((h :: d') ++ y ++ (h :: d'))
  = otag ++ y ++ ctag.
Proof.
  intros Hy Hall.
  cbn [replaceSpans app].
  change (h :: d' ++ y ++ h :: d') with ((h :: d') ++ y ++ (h :: d')).
  rewrite startsWith_app, drop_app_length.
  rewrite <- (app_nil_r (y ++ h :: d')), <- app_assoc.
  rewrite (lazySpan_exact ok h d' y [] Hy Hall).
  rewrite app_nil_r.
  replace (length (h :: d') + length y + length (h :: d') - 1)%nat
    with (length (d' ++ y ++ h :: d')).
  2:{ cbn [length]. rewrite !length_app. cbn [length]. lia. }
  rewrite <- (app_nil_r (d' ++ y ++ h :: d')) at 2.
  rewrite replaceSpans_skip. cbn [replaceSpans]. by rewrite !app_nil_r.
Qed.

Lemma plainChar_ok c :
  plainChar c = true ->
  (anyButLineTerminator c = true /\ c <> 42)
  /\ c <> 95 /\ c <> 96.
Proof.
  unfold plainChar, anyButLineTerminator. rewrite negb_true_iff.
  rewrite !orb_false_iff. intros [[[H1 H2] H3] H4].
  repeat split; try by rewrite H4.
  all: intros ->; done.
Qed.

Lemma bold_not_reescaped x :
  x <> [] -> Forall (fun c => plainChar c = true) x ->
  inlineMarkdown (lit "**" ++ x ++ lit "**")
  = lit "<strong>" ++ escapeHtml x ++ lit "</strong>".
Proof.
  intros Hx Hplain. unfold inlineMarkdown. cbv zeta.
  rewrite !escapeHtml_app.
  change (escapeHtml (lit "**")) with (lit "**").
  pose proof (escapeHtml_plain x Hplain) as Hy.
  pose proof (escapeHtml_nonempty x Hx) as Hne.
  set (y := escapeHtml x) in *.
  change (lit "**") with (42 :: [42]).
  rewrite replaceSpans_one; [|done|].
  2:{ eapply Forall_impl; [exact Hy|]. intros c Hc.
      by apply plainChar_ok in Hc as [? _]. }
  assert (Hfree : forall h, h = 95 \/ h = 42 \/ h = 96 ->
            Forall (fun c => c <> h) (lit "<strong>" ++ y ++ lit "</strong>")).
  { intros h Hh. rewrite !Forall_app. split; [|split].
    - destruct Hh as [->|[->| ->]]; repeat constructor; done.
    - eapply Forall_impl; [exact Hy|]. intros c Hc.
      apply plainChar_ok in Hc as [[_ ?] [? ?]].
      destruct Hh as [->|[->| ->]]; done.
    - destruct Hh as [->|[->| ->]]; repeat constructor; done. }
  change (lit "__") with (95 :: [95]).
  change (lit "*") with (42 :: []).
  change (lit "_") with (95 :: []).
  change (lit "`") with (96 :: []).
  rewrite (replaceSpans_absent _ 95 [95]) by (apply Hfree; auto).
  rewrite (replaceSpans_absent _ 42 []) by (apply Hfree; auto).
  rewrite (replaceSpans_absent _ 95 []) by (apply Hfree; auto).
  by rewrite (replaceSpans_absent _ 96 []) by (apply Hfree; auto).
Qed.

End Inline.

(** ** RelativeDateFormatter *)

Section Formatter.
Import ReviewsList.
Context (env : Env).

Lemma relative_locale n unit :
  relative env n unit = phrase (TEXT (activeLang env)) unit n.
Proof.
  unfold relative, activeLang. by destruct (documentLang env).
Qed.

Lemma bucket_cases (dd : Z) :
  ((dd <= 0)%Z -> bucket env (Some dd) = today (TEXT ko))
  /\ ((1 <= dd <= 6)%Z ->
      bucket env (Some dd) = day (TEXT (activeLang env)) (Some dd))
  /\ ((7 <= dd <= 27)%Z ->
      bucket env (Some dd) = week (TEXT (activeLang env)) (Some (dd `div` 7)%Z))
  /\ ((28 <= dd)%Z -> (dd `div` 30 < 12)%Z ->
      bucket env (Some dd) = month (TEXT (activeLang env)) (Some (dd `div` 30)%Z))
  /\ ((28 <= dd)%Z -> (12 <= dd `div` 30)%Z ->
      bucket env (Some dd) = year (TEXT (activeLang env)) (Some (dd `div` 365)%Z)).
Proof.
  unfold bucket. rewrite !relative_locale. cbn [phrase].
  repeat split; intros.
  - by rewrite (proj2 (Z.leb_le dd 0)) by lia.
  - rewrite (proj2 (Z.leb_gt dd 0)) by lia.
    by rewrite (proj2 (Z.ltb_lt dd 7)) by lia.
  - rewrite (proj2 (Z.leb_gt dd 0)) by lia.
    rewrite (proj2 (Z.ltb_ge dd 7)) by lia.
    assert (dd `div` 7 < 4)%Z by (apply Z.div_lt_upper_bound; lia).
    by rewrite (proj2 (Z.ltb_lt _ 4)) by lia.
  - rewrite (proj2 (Z.leb_gt dd 0)) by lia.
    rewrite (proj2 (Z.ltb_ge dd 7)) by lia.
    assert (4 <= dd `div` 7)%Z by (apply Z.div_le_lower_bound; lia).
    rewrite (proj2 (Z.ltb_ge _ 4)) by lia.
    by rewrite (proj2 (Z.ltb_lt _ 12)) by lia.
  - rewrite (proj2 (Z.leb_gt dd 0)) by lia.
    rewrite (proj2 (Z.ltb_ge dd 7)) by lia.
    assert (4 <= dd `div` 7)%Z by (apply Z.div_le_lower_bound; lia).
    rewrite (proj2 (Z.ltb_ge _ 4)) by lia.
    by rewrite (proj2 (Z.ltb_ge _ 12)) by lia.
Qed.

Lemma format_parsed value parsed :
  value <> [] -> parseDate env value = Some parsed ->
  formatRelativeDate env value = bucket env (diffDaysOf env parsed).
Proof.
  intros Hv Hp. unfold formatRelativeDate.
  rewrite bool_decide_eq_false_2 by done. by rewrite Hp.
Qed.

(** The today branch returns the Korean literal whatever the locale. *)
Lemma format_same_day value parsed midnight :
  value <> [] -> parseDate env value = Some parsed ->
  getFullYear env parsed = getFullYear env (now env) ->
  getMonth env parsed = getMonth env (now env) ->
  getDate env parsed = getDate env (now env) ->
  midnightOf env (now env) = Some midnight ->
  formatRelativeDate env value = [0xC624; 0xB298].
Proof.
  intros Hv Hp Hy Hm Hd Hmid. rewrite (format_parsed _ _ Hv Hp).
  unfold diffDaysOf. rewrite Hmid.
  unfold midnightOf in *. rewrite Hy, Hm, Hd, Hmid.
  by rewrite Z.sub_diag.
Qed.

End Formatter.

(** C8.  For a value that parses, [diffDays] is
    [floor((today_midnight - target_midnight) / 86400000)], where each
    midnight is the local midnight [new Date(y, m, d)] of the year, month
    and day of now and of the parsed date.  The first matching bucket
    decides: 1..6 gives the day phrase with N = diffDays; 7..27 gives the
    week phrase with N = floor(diffDays/7); from 28 on,
    floor(diffDays/30) < 12 gives the month phrase with
    N = floor(diffDays/30), and otherwise the year phrase with
    N = floor(diffDays/365), each phrase that of the active locale.  For
    [diffDays <= 0] the output is the today phrase of the active locale on
    a Korean page; on an English page it is the Korean literal all the
    same, and so not the today phrase of the active locale. *)
Theorem relative_date_buckets (env : Env) (value : jsstring)
        (parsed todayMidnight targetMidnight : Z) :
  value <> [] ->
  ReviewsList.parseDate env value = Some parsed ->
  Date_local env (getFullYear env (now env)) (getMonth env (now env))
             (getDate env (now env)) = Some todayMidnight ->
  Date_local env (getFullYear env parsed) (getMonth env parsed)
             (getDate env parsed) = Some targetMidnight ->
  let diffDays := ((todayMidnight - targetMidnight) `div` 86400000)%Z in
  let copy := ReviewsList.TEXT (activeLang env) in
  let out := ReviewsList.formatRelativeDate env value in
  ((diffDays <= 0)%Z ->
   (activeLang env = ReviewsList.ko -> out = ReviewsList.today copy)
   /\ (activeLang env = ReviewsList.en ->
       out = ReviewsList.today (ReviewsList.TEXT ReviewsList.ko)
       /\ out <> ReviewsList.today copy))
  /\ ((1 <= diffDays <= 6)%Z -> out = ReviewsList.day copy (Some diffDays))
  /\ ((7 <= diffDays <= 27)%Z ->
      out = ReviewsList.week copy (Some (diffDays `div` 7)%Z))
  /\ ((28 <= diffDays)%Z -> (diffDays `div` 30 < 12)%Z ->
      out = ReviewsList.month copy (Some (diffDays `div` 30)%Z))
  /\ ((28 <= diffDays)%Z -> (12 <= diffDays `div` 30)%Z ->
      out = ReviewsList.year copy (Some (diffDays `div` 365)%Z)).
Proof.
  intros Hv Hp Ht0 Ht1 diffDays copy out. subst out copy.
  rewrite (format_parsed env _ _ Hv Hp).
  unfold ReviewsList.diffDaysOf, ReviewsList.midnightOf.
  rewrite Ht0, Ht1. fold diffDays.
  destruct (bucket_cases env diffDays) as (Htoday & Hrest).
  split; [|exact Hrest].
  intros Hdd. rewrite (Htoday Hdd). split.
  - by intros ->.
  - intros ->. by split.
Qed.

Lemma relative_date_buckets_witness :
  let env := SampleHost.host (2026, 11, 3)%Z (lit "en-US") [] in
  ReviewsList.formatRelativeDate env (lit "2026/10/20") = lit "2 weeks ago"
  /\ ReviewsList.formatRelativeDate env (lit "2024-01-01") = lit "2 years ago"
  /\ ReviewsList.formatRelativeDate env (lit "2026-11-03") = [0xC624; 0xB298]
  /\ ReviewsList.formatRelativeDate env (lit "2026-11-03") <> lit "Today".
Proof.
  intros env. split; [|split].
  - apply (proj1 (proj2 (proj2
      (relative_date_buckets env (lit "2026/10/20")
         1792454400000 1793664000000 1792454400000
         ltac:(done) ltac:(by vm_compute) ltac:(by vm_compute)
         ltac:(by vm_compute))))).
    by vm_compute.
  - apply (proj2 (proj2 (proj2 (proj2
      (relative_date_buckets env (lit "2024-01-01")
         1704067200000 1793664000000 1704067200000
         ltac:(done) ltac:(by vm_compute) ltac:(by vm_compute)
         ltac:(by vm_compute)))))).
    + by vm_compute.
    + by vm_compute.
  - apply (proj2 (proj1
      (relative_date_buckets env (lit "2026-11-03")
         1793664000000 1793664000000 1793664000000
         ltac:(done) ltac:(by vm_compute) ltac:(by vm_compute)
         ltac:(by vm_compute)) ltac:(by vm_compute))).
    by vm_compute.
Defined.

(** C1, on an English page.  The host's page language is [en-US] and the
    value is today's date: [formatRelativeDate] returns the Korean literal,
    not the [today] entry of the English copy. *)
Theorem today_phrase_on_english_page :
  let env := SampleHost.host (2026, 11, 3)%Z (lit "en-US") [] in
  activeLang env = ReviewsList.en
  /\ ReviewsList.formatRelativeDate env (lit "2026-11-03")
     = ReviewsList.today (ReviewsList.TEXT ReviewsList.ko)
  /\ ReviewsList.formatRelativeDate env (lit "2026-11-03")
     <> ReviewsList.today (ReviewsList.TEXT (activeLang env)).
Proof. by vm_compute. Qed.

(** ** MetadataParser *)

Section Metadata.
Import FrontMatter.

Lemma indexOf_first c before after :
  c ∉ before -> indexOf c (before ++ c :: after) = Some (length before).
Proof.
  induction before as [|x before IH]; intros Hnot; simpl.
  - by rewrite (proj2 (eqc_true c c) eq_refl).
  - apply not_elem_of_cons in Hnot as [Hx Hnot].
    destruct (eqc x c) eqn:E; [apply eqc_true in E; congruence|].
    by rewrite IH.
Qed.

Lemma stripQuotes_both q1 q2 mid :
  isQuote q1 = true -> isQuote q2 = true ->
  stripQuotes (q1 :: mid ++ [q2]) = mid.
Proof.
  intros H1 H2. unfold stripQuotes. rewrite H1, reverse_app. simpl.
  by rewrite H2, reverse_involutive.
Qed.

Lemma stripQuotes_leading q rest :
  isQuote q = true ->
  (forall c, last rest = Some c -> isQuote c = false) ->
  stripQuotes (q :: rest) = rest.
Proof.
  intros Hq Hlast. unfold stripQuotes. rewrite Hq.
  destruct (reverse rest) as [|c tser] eqn:E; [done|].
  rewrite (Hlast c); [done|].
  rewrite <- (reverse_involutive rest), E, reverse_cons. apply last_snoc.
Qed.

Lemma stripQuotes_trailing c body q :
  isQuote c = false -> isQuote q = true ->
  stripQuotes (c :: body ++ [q]) = c :: body.
Proof.
  intros Hc Hq. unfold stripQuotes. rewrite Hc.
  rewrite app_comm_cons, reverse_app. simpl.
  by rewrite Hq, reverse_involutive.
Qed.

Lemma stripQuotes_none raw :
  (forall c, head raw = Some c -> isQuote c = false) ->
  (forall c, last raw = Some c -> isQuote c = false) ->
  stripQuotes raw = raw.
Proof.
  intros Hhead Hlast. unfold stripQuotes.
  destruct raw as [|c rest]; [done|]. rewrite (Hhead c) by done.
  destruct (reverse (c :: rest)) as [|c' tser] eqn:E; [done|].
  rewrite (Hlast c'); [done|].
  rewrite <- (reverse_involutive (c :: rest)), E, reverse_cons.
  apply last_snoc.
Qed.

Lemma parseLine_colon before after :
  58 ∉ before -> trim before <> [] ->
  parseLine (before ++ 58 :: after)
  = Some (trim before, stripQuotes (trim after)).
Proof.
  intros Hnot Hkey. unfold parseLine. rewrite (indexOf_first _ _ _ Hnot).
  rewrite take_app_length.
  rewrite bool_decide_eq_false_2 by done.
  replace (S (length before)) with (length (before ++ [58]))
    by (rewrite length_app; simpl; lia).
  assert (before ++ 58 :: after = (before ++ [58]) ++ after) as ->
    by (by rewrite <- app_assoc).
  by rewrite drop_app_length.
Qed.

End Metadata.

(** C2, as the code has it.  For a line with a colon and a non-empty key
    the value is the text after the first colon, trimmed, with a quote
    character at its start removed when there is one and, independently, a
    quote character at its end removed when there is one.  So a matching
    pair is stripped (here the code agrees with the matching-pair rule),
    and so are a lone leading quote, a lone trailing quote and a pair of
    two different quote characters; unless the key is [__proto__], the
    value is stored under the key. *)
Theorem front_matter_value (before after : jsstring) :
  58 ∉ before -> trim before <> [] ->
  let key := trim before in
  let raw := trim after in
  let value := FrontMatter.stripQuotes raw in
  FrontMatter.parseLine (before ++ 58 :: after) = Some (key, value)
  /\ (forall acc, key <> lit "__proto__" ->
        FrontMatter.reducer acc (before ++ 58 :: after) !! key = Some value)
  /\ (forall q1 q2 mid,
        raw = q1 :: mid ++ [q2] ->
        FrontMatter.isQuote q1 = true -> FrontMatter.isQuote q2 = true ->
        value = mid)
  /\ (forall q mid,
        raw = q :: mid ++ [q] -> FrontMatter.isQuote q = true ->
        value = stripMatchingPair raw)
  /\ (forall q rest,
        raw = q :: rest -> FrontMatter.isQuote q = true ->
        (forall c, last rest = Some c -> FrontMatter.isQuote c = false) ->
        value = rest)
  /\ (forall c body q,
        raw = c :: body ++ [q] ->
        FrontMatter.isQuote c = false -> FrontMatter.isQuote q = true ->
        value = c :: body)
  /\ ((forall c, head raw = Some c -> FrontMatter.isQuote c = false) ->
      (forall c, last raw = Some c -> FrontMatter.isQuote c = false) ->
      value = raw).
Proof.
  intros Hnot Hkey key raw value. subst value.
  pose proof (parseLine_colon before after Hnot Hkey) as Hline.
  split; [exact Hline|]. split; [|repeat split].
  - intros acc Hproto. unfold FrontMatter.reducer. rewrite Hline.
    unfold FrontMatter.setProperty.
    rewrite bool_decide_eq_false_2 by done. apply lookup_insert_eq.
  - intros q1 q2 mid -> H1 H2. by apply stripQuotes_both.
  - intros q mid -> Hq. rewrite stripQuotes_both by done.
    unfold stripMatchingPair. rewrite reverse_app. simpl.
    by rewrite Hq, (proj2 (eqc_true q q) eq_refl), reverse_involutive.
  - intros q rest -> Hq Hlast. by apply stripQuotes_leading.
  - intros c body q -> Hc Hq. by apply stripQuotes_trailing.
  - intros Hhead Hlast. by apply stripQuotes_none.
Qed.

Lemma front_matter_value_witness :
  FrontMatter.parseLine (lit " title " ++ 58 :: lit " 'It's' ")
  = Some (lit "title", lit "It's").
Proof.
  apply (proj1 (front_matter_value (lit " title ") (lit " 'It's' ")
                  ltac:(absent)
                  ltac:(by vm_compute))).
Defined.

(** C2 as stated fails: a value with only a leading quote loses it.  On
    the line made of [title:], a space, a double quote and [abc], the
    matching-pair rule keeps the quote and the parser drops it. *)
Lemma unmatched_quote_is_stripped :
  let line := lit "title" ++ 58 :: 32 :: 34 :: lit "abc" in
  FrontMatter.parseLine line = Some (lit "title", lit "abc")
  /\ stripMatchingPair (trim (32 :: 34 :: lit "abc")) = 34 :: lit "abc"
  /\ ~ (forall before after,
          58 ∉ before -> trim before <> [] ->
          FrontMatter.parseLine (before ++ 58 :: after)
          = Some (trim before, stripMatchingPair (trim after))).
Proof.
  split; [by vm_compute|]. split; [by vm_compute|].
  intros Hclaim.
  specialize (Hclaim (lit "title") (32 :: 34 :: lit "abc")).
  specialize (Hclaim ltac:(absent) ltac:(by vm_compute)).
  by vm_compute in Hclaim.
Qed.

(** ** FilenameInference *)

Section Filename.

Lemma join_split c s : join [c] (split c s) = s.
Proof.
  unfold split. induction s as [|x s IH]; [done|]. cbn [splitOn].
  pose proof (splitOn_nonempty (fun y => eqc y c) s) as Hne.
  destruct (eqc x c) eqn:E.
  - apply eqc_true in E as ->.
    destruct (splitOn _ s) as [|piece more]; [done|].
    change (join [c] ([] :: piece :: more))
      with ([] ++ [c] ++ join [c] (piece :: more)).
    by rewrite IH.
  - destruct (splitOn _ s) as [|piece more]; [done|].
    destruct more as [|next more]; [by rewrite <- IH|].
    change (join [c] ((x :: piece) :: next :: more))
      with (x :: piece ++ [c] ++ join [c] (next :: more)).
    by rewrite <- IH.
Qed.

Lemma drop_first_token base :
  join (lit "_") (drop 1 (split 95 base)) = afterUnderscore base.
Proof.
  unfold afterUnderscore, split. induction base as [|x s IH]; [done|].
  cbn [splitOn indexOf].
  destruct (eqc x 95) eqn:E.
  - cbn [drop]. rewrite drop_0. apply (join_split 95).
  - pose proof (splitOn_nonempty (fun y => eqc y 95) s) as Hne.
    destruct (splitOn _ s) as [|piece more] eqn:Hs; [done|].
    cbn [drop] in *. rewrite drop_0 in *. rewrite IH.
    by destruct (indexOf 95 s).
Qed.

Lemma stripMd_suffix x : stripMd (x ++ lit ".md") = x.
Proof.
  unfold stripMd. change (lit ".md") with [46; 109; 100].
  rewrite reverse_app. simpl. apply reverse_involutive.
Qed.

Lemma afterFirstToken_spec base :
  ReviewsList.afterFirstToken base
  = match afterUnderscore base with [] => base | c :: t => c :: t end.
Proof. unfold ReviewsList.afterFirstToken. by rewrite drop_first_token. Qed.

Lemma matchDatedSlug_spec base rest :
  ReviewsList.matchDatedSlug base = Some rest
  <-> exists y1 y2 y3 y4 m1 m2 d1 d2 sep,
        base = [y1; y2; y3; y4; 45; m1; m2; 45; d1; d2; sep] ++ rest
        /\ allDigits [y1; y2; y3; y4; m1; m2; d1; d2]
        /\ (sep = 45 \/ sep = 95)
        /\ rest <> []
        /\ Forall (fun c => isLineTerminator c = false) rest.
Proof.
  split.
  - destruct base as [|y1 [|y2 [|y3 [|y4 [|h1 [|m1 [|m2 [|h2 [|d1 [|d2
      [|sep [|c rest']]]]]]]]]]]]; try done.
    cbn [ReviewsList.matchDatedSlug].
    destruct (_ && _) eqn:E; [|done]. intros [= <-].
    rewrite !andb_true_iff, orb_true_iff, !eqc_true in E.
    destruct E as [[[[[[[[[[[Hy1 Hy2] Hy3] Hy4] ->] Hm1] Hm2] ->] Hd1] Hd2]
                     Hsep] Hrest].
    exists y1, y2, y3, y4, m1, m2, d1, d2, sep.
    split; [done|]. split; [by repeat constructor|]. split; [done|].
    split; [done|]. apply forallb_all in Hrest.
    eapply Forall_impl; [exact Hrest|]. intros x Hx.
    unfold anyButLineTerminator in Hx. by destruct (isLineTerminator x).
  - intros (y1 & y2 & y3 & y4 & m1 & m2 & d1 & d2 & sep & -> & Hd & Hsep
            & Hne & Hrest).
    destruct rest as [|c rest']; [done|].
    cbn [app ReviewsList.matchDatedSlug].
    repeat (apply Forall_cons in Hd as [? Hd]).
    replace (_ && _) with true; [done|]. symmetry.
    rewrite !andb_true_iff, orb_true_iff, !eqc_true.
    repeat split; try done.
    apply forallb_all. eapply Forall_impl; [exact Hrest|]. intros x Hx.
    unfold anyButLineTerminator. by rewrite Hx.
Qed.





End Filename.




(** ** ReviewCatalog *)

Section SortFacts.
Import ArraySort.
Context {A : Type} (comparefn : A -> A -> option Z).

Lemma insertSorted_perm x l : insertSorted comparefn x l ≡ₚ x :: l.
Proof.
  induction l as [|y l IH]; simpl; [done|].
  destruct (0 <? sortCompare comparefn x y)%Z; [|done].
  rewrite IH. apply perm_swap.
Qed.

Lemma sort_perm l : sort comparefn l ≡ₚ l.
Proof.
  induction l as [|x l IH]; simpl; [done|].
  by rewrite insertSorted_perm, IH.
Qed.


(** A comparator that subtracts keys, the second argument's minus the
    first's, on the elements that satisfy [P]. *)
Context (P : A -> Prop) (key : A -> Z).
Hypothesis comparefn_key :
  forall x y, P x -> P y -> comparefn x y = Some (key y - key x)%Z.






End SortFacts.

Section Catalog.
Import ReviewsList.

Lemma loadReviews_sort env files :
  loadReviews env files = ArraySort.sort (byDateDescending env) (retained env files).
Proof. by destruct files. Qed.






End Catalog.





(** * Further properties of the two scripts *)

(** ** The lazy scan for the closing delimiter *)

Section LazyScan.
Implicit Types (d s cap rest pre suf : jsstring).

Lemma startsWith_true_iff d s :
  startsWith d s = true <-> exists rest, s = d ++ rest.
Proof.
  split.
  - intros H. exists (drop (length d) s). by apply startsWith_split.
  - intros [rest ->]. apply startsWith_app.
Qed.

(** The capture ends at the first place where [d] stands. *)
Lemma lazyUntil_minimal d s cap rest :
  lazyUntil d s = Some (cap, rest) ->
  forall pre suf, s = pre ++ d ++ suf -> (length cap <= length pre)%nat.
Proof.
  revert cap rest. induction s as [|c s IH]; intros cap rest.
  - simpl. destruct (startsWith d []); [|done].
    intros Hsome. apply (inj Some), pair_equal_spec in Hsome as [<- _].
    intros; simpl; lia.
  - cbn [lazyUntil]. destruct (startsWith d (c :: s)) eqn:E.
    + intros Hsome. apply (inj Some), pair_equal_spec in Hsome as [<- _].
      intros; simpl; lia.
    + destruct (lazyUntil d s) as [[cap' rest']|] eqn:L; [|done].
      intros Hsome. apply (inj Some), pair_equal_spec in Hsome as [<- <-].
      intros pre suf Hs. destruct pre as [|x pre].
      * rewrite app_nil_l in Hs. rewrite Hs, startsWith_app in E. done.
      * rewrite <- app_comm_cons in Hs.
        apply (f_equal (drop 1)) in Hs. cbn [drop] in Hs. rewrite !drop_0 in Hs.
        specialize (IH _ _ eq_refl pre suf Hs). simpl. lia.
Qed.

Lemma lazyUntil_first d cap rest :
  (forall pre suf, cap ++ d ++ rest = pre ++ d ++ suf ->
                   (length cap <= length pre)%nat) ->
  lazyUntil d (cap ++ d ++ rest) = Some (cap, rest).
Proof.
  induction cap as [|c cap IH]; intros Hfirst.
  - rewrite app_nil_l.
    destruct (d ++ rest) as [|x s] eqn:E.
    + simpl. rewrite <- E at 1. rewrite startsWith_app.
      rewrite <- E, drop_app_length. done.
    + cbn [lazyUntil]. rewrite <- E. rewrite startsWith_app.
      by rewrite drop_app_length.
  - rewrite <- app_comm_cons. cbn [lazyUntil].
    destruct (startsWith d (c :: cap ++ d ++ rest)) eqn:E.
    + apply startsWith_true_iff in E as [suf E].
      specialize (Hfirst [] suf). rewrite <- app_comm_cons in Hfirst.
      specialize (Hfirst E). simpl in Hfirst. lia.
    + rewrite IH; [done|]. intros pre suf Hs.
      specialize (Hfirst (c :: pre) suf). rewrite <- !app_comm_cons in Hfirst.
      rewrite Hs in Hfirst. specialize (Hfirst eq_refl). simpl in Hfirst. lia.
Qed.

Lemma lazyUntil_none d s : lazyUntil d s = None <-> ~ occurs d s.
Proof.
  split.
  - intros Hnone (pre & suf & ->). revert Hnone.
    induction pre as [|c pre IH].
    + rewrite app_nil_l. destruct (d ++ suf) as [|x s] eqn:E.
      * simpl. rewrite <- E at 1. by rewrite startsWith_app.
      * cbn [lazyUntil]. rewrite <- E. by rewrite startsWith_app.
    + rewrite <- app_comm_cons. cbn [lazyUntil].
      destruct (startsWith d _); [done|].
      destruct (lazyUntil d (pre ++ d ++ suf)) as [[? ?]|]; [done|]. auto.
  - intros Hnot. destruct (lazyUntil d s) as [[cap rest]|] eqn:E; [|done].
    exfalso. apply Hnot. exists cap, rest. by apply lazyUntil_sound.
Qed.

(** A delimiter that stands before the end of [block] in
    [block ++ closingDelimiter ++ rest] stands inside [block]. *)
Lemma closing_not_across block rest pre suf :
  ~ occurs closingDelimiter block ->
  block ++ closingDelimiter ++ rest = pre ++ closingDelimiter ++ suf ->
  (length block <= length pre)%nat.
Proof.
  intros Hnot Heq.
  apply app_eq_inv in Heq as [(k & -> & Hk)|(k & -> & Hk)].
  2:{ rewrite length_app. lia. }
  destruct k as [|k1 k]; [rewrite length_app; simpl; lia|].
  exfalso. unfold closingDelimiter in *.
  change ([LF] ++ lit "---") with [LF; 45; 45; 45] in *.
  cbn [app] in Hk.
  destruct k as [|k2 [|k3 [|k4 k]]]; cbn [app] in Hk; try discriminate Hk.
  injection Hk as <- <- <- <- _.
  apply Hnot. by exists pre, k.
Qed.

End LazyScan.

(** ** DocumentSplitter, matched case *)

Lemma matchFrontMatter_assembled block rest :
  ~ occurs closingDelimiter block ->
  Review.matchFrontMatter (lit "---" ++ [LF] ++ block ++ closingDelimiter ++ rest)
  = Some (lit "---" ++ [LF] ++ block ++ closingDelimiter
          ++ (if startsWith [LF] rest then [LF] else []), block).
Proof.
  intros Hnot. unfold Review.matchFrontMatter. cbv zeta.
  rewrite (app_assoc (lit "---") [LF]).
  rewrite startsWith_app, drop_app_length.
  fold closingDelimiter.
  rewrite lazyUntil_first; [done|].
  intros pre suf. by apply closing_not_across.
Qed.

Lemma splitFrontMatter_assembled (block body : jsstring) :
  ~ occurs closingDelimiter block ->
  Review.splitFrontMatter (assemble block body)
  = {| Review.frontmatter := block; Review.body := body |}.
Proof.
  intros Hnot. unfold Review.splitFrontMatter, assemble.
  rewrite (matchFrontMatter_assembled block ([LF] ++ body) Hnot).
  f_equal. change (startsWith [LF] ([LF] ++ body)) with true. cbv iota.
  replace (lit "---" ++ [LF] ++ block ++ closingDelimiter ++ [LF] ++ body)
    with ((lit "---" ++ [LF] ++ block ++ closingDelimiter ++ [LF]) ++ body)
    by (by rewrite <- !app_assoc).
  apply drop_app_length.
Qed.

(** X1.  A front-matter block that holds no closing delimiter comes back
    from the split exactly, with the body after it: one line break after
    the closing dashes is consumed, and no more. *)
Theorem split_of_assembled (block body : jsstring) :
  ~ occurs closingDelimiter block ->
  Review.splitFrontMatter (assemble block body)
  = {| Review.frontmatter := block; Review.body := body |}
  /\ (startsWith [LF] body = false ->
      Review.splitFrontMatter (lit "---" ++ [LF] ++ block ++ closingDelimiter ++ body)
      = {| Review.frontmatter := block; Review.body := body |}).
Proof.
  intros Hnot. split.
  - unfold Review.splitFrontMatter, assemble.
    rewrite (matchFrontMatter_assembled block ([LF] ++ body) Hnot).
    f_equal. change (startsWith [LF] ([LF] ++ body)) with true. cbv iota.
    replace (lit "---" ++ [LF] ++ block ++ closingDelimiter ++ [LF] ++ body)
      with ((lit "---" ++ [LF] ++ block ++ closingDelimiter ++ [LF]) ++ body)
      by (by rewrite <- !app_assoc).
    apply drop_app_length.
  - intros Hbody. unfold Review.splitFrontMatter.
    rewrite (matchFrontMatter_assembled block body Hnot), Hbody.
    f_equal.
    replace (lit "---" ++ [LF] ++ block ++ closingDelimiter ++ body)
      with ((lit "---" ++ [LF] ++ block ++ closingDelimiter ++ []) ++ body)
      by (by rewrite <- !app_assoc).
    apply drop_app_length.
Qed.

Lemma split_of_assembled_witness :
  Review.splitFrontMatter
    (assemble (lit "title: A" ++ [LF] ++ lit "date: 2024-01-15")
              ([LF] ++ lit "# Body"))
  = {| Review.frontmatter := lit "title: A" ++ [LF] ++ lit "date: 2024-01-15";
       Review.body := [LF] ++ lit "# Body" |}.
Proof.
  apply split_of_assembled. apply lazyUntil_none. by vm_compute.
Defined.

(** X2.  Without a closing delimiter after the opening line there is no
    front matter: the whole text is the body.  This covers the block of
    zero lines, where the closing dashes follow the opening line
    directly. *)
Theorem split_without_closing_delimiter (text : jsstring) :
  ~ occurs closingDelimiter (drop 4 text) ->
  Review.splitFrontMatter text
  = {| Review.frontmatter := []; Review.body := text |}.
Proof.
  intros Hnot. unfold Review.splitFrontMatter, Review.matchFrontMatter.
  cbv zeta. destruct (startsWith (lit "---" ++ [LF]) text); [|done].
  change (length (lit "---" ++ [LF])) with 4%nat.
  apply lazyUntil_none in Hnot. fold closingDelimiter. by rewrite Hnot.
Qed.

Lemma split_without_closing_delimiter_witness :
  Review.splitFrontMatter (lit "---" ++ [LF] ++ lit "---" ++ [LF] ++ lit "Body")
  = {| Review.frontmatter := [];
       Review.body := lit "---" ++ [LF] ++ lit "---" ++ [LF] ++ lit "Body" |}.
Proof.
  apply split_without_closing_delimiter. apply lazyUntil_none. by vm_compute.
Defined.

(** The front matter the split returns never holds a closing delimiter. *)
Lemma frontmatter_without_delimiter (text : jsstring) :
  ~ occurs closingDelimiter (Review.frontmatter (Review.splitFrontMatter text)).
Proof.
  unfold Review.splitFrontMatter, Review.matchFrontMatter. cbv zeta.
  destruct (startsWith (lit "---" ++ [LF]) text).
  2:{ intros (pre & suf & H). by destruct pre. }
  destruct (lazyUntil _ _) as [[cap rest]|] eqn:L.
  2:{ intros (pre & suf & H). by destruct pre. }
  cbn [Review.frontmatter]. intros (pre & suf & Hcap).
  pose proof (lazyUntil_sound _ _ _ _ L) as Hs.
  pose proof (lazyUntil_minimal _ _ _ _ L pre
                (suf ++ ([LF] ++ lit "---") ++ rest)) as Hmin.
  rewrite Hs, Hcap in Hmin. unfold closingDelimiter in Hmin.
  rewrite <- !app_assoc in Hmin. specialize (Hmin eq_refl).
  rewrite !length_app in Hmin. simpl in Hmin. lia.
Qed.

(** X3.  The front matter the split returns ends at the first closing
    delimiter, so it holds none; and splitting is stable under reassembly:
    the two parts of any document, put together again between delimiter
    lines, split into the same two parts. *)
Theorem split_is_stable_under_reassembly (text : jsstring) :
  let r := Review.splitFrontMatter text in
  ~ occurs closingDelimiter (Review.frontmatter r)
  /\ Review.splitFrontMatter (assemble (Review.frontmatter r) (Review.body r))
     = r.
Proof.
  intros r. split; [apply frontmatter_without_delimiter|].
  rewrite (splitFrontMatter_assembled (Review.frontmatter r) (Review.body r)
             (frontmatter_without_delimiter text)).
  by destruct r.
Qed.

(** ** MetadataParser over whole blocks *)

(** X4.  The two scripts read the same metadata: what the list view
    parses out of a document is what the detail view parses out of the
    front matter it split off. *)
Theorem both_views_parse_alike (text : jsstring) :
  ReviewsList.parseFrontMatter text
  = Review.parseFrontMatter (Review.frontmatter (Review.splitFrontMatter text)).
Proof.
  unfold ReviewsList.parseFrontMatter, ReviewsList.matchFrontMatter.
  unfold Review.splitFrontMatter, Review.matchFrontMatter. cbv zeta.
  destruct (startsWith (lit "---" ++ [LF]) text); [|done].
  destruct (lazyUntil _ _) as [[cap rest]|]; [|done].
  cbn [fmap option_fmap option_map fst Review.frontmatter].
  unfold Review.parseFrontMatter. case_bool_decide as Hcap; [|done].
  by rewrite Hcap.
Qed.

Section Blocks.
Import FrontMatter.
Implicit Types (s line block : jsstring).

Lemma split_snoc c block line :
  c ∉ line -> split c (block ++ c :: line) = split c block ++ [line].
Proof.
  intros Hc. unfold split.
  assert (Hline : splitOn (fun x => eqc x c) line = [line]).
  { clear block. induction line as [|x line IH]; [done|].
    apply not_elem_of_cons in Hc as [Hx Hc]. cbn [splitOn].
    destruct (eqc x c) eqn:E; [apply eqc_true in E; done|].
    by rewrite IH. }
  induction block as [|x block IH].
  - cbn [app splitOn]. rewrite (proj2 (eqc_true c c) eq_refl).
    by rewrite Hline.
  - rewrite <- app_comm_cons. cbn [splitOn].
    destruct (eqc x c); rewrite IH; [done|].
    pose proof (splitOn_nonempty (fun y => eqc y c) block) as Hne.
    by destruct (splitOn _ block).
Qed.

Lemma parseLines_snoc block line :
  LF ∉ line ->
  parseLines (block ++ LF :: line) = reducer (parseLines block) line.
Proof.
  intros Hline. unfold parseLines.
  by rewrite (split_snoc LF _ _ Hline), foldl_app.
Qed.

Lemma indexOf_none c s : c ∉ s -> indexOf c s = None.
Proof.
  induction s as [|x s IH]; [done|]. intros [Hx Hs]%not_elem_of_cons.
  cbn [indexOf]. destruct (eqc x c) eqn:E; [apply eqc_true in E; done|].
  by rewrite IH.
Qed.

Lemma indexOf_some c s i :
  indexOf c s = Some i -> c ∉ take i s.
Proof.
  revert i. induction s as [|x s IH]; intros i; [done|]. cbn [indexOf].
  destruct (eqc x c) eqn:E.
  - intros [= <-]. apply not_elem_of_nil.
  - destruct (indexOf c s) as [j|]; [|done]. intros [= <-]. cbn [take].
    apply not_elem_of_cons. split; [|by apply IH].
    intros ->. by rewrite (proj2 (eqc_true x x) eq_refl) in E.
Qed.

Lemma dropWhile_suffix f s :
  exists pre, s = pre ++ dropWhile f s /\ Forall (fun c => f c = true) pre.
Proof.
  induction s as [|c s (pre & Hs & Hpre)]; [by exists []|].
  cbn [dropWhile]. destruct (f c) eqn:E.
  - exists (c :: pre). split; [by rewrite <- app_comm_cons, <- Hs|].
    by constructor.
  - by exists [].
Qed.

Lemma dropWhile_head f s c :
  head (dropWhile f s) = Some c -> f c = false.
Proof.
  induction s as [|x s IH]; [done|]. cbn [dropWhile].
  destruct (f x) eqn:E; [done|]. by intros [= <-].
Qed.

Lemma trimEnd_prefix s :
  exists suf, s = trimEnd s ++ suf.
Proof.
  unfold trimEnd.
  destruct (dropWhile_suffix isSpace (reverse s)) as (pre & Hs & _).
  exists (reverse pre).
  rewrite <- reverse_app, <- Hs. by rewrite reverse_involutive.
Qed.

Lemma trim_sub s x : x ∈ trim s -> x ∈ s.
Proof.
  unfold trim, trimStart. intros Hx.
  destruct (trimEnd_prefix (dropWhile isSpace s)) as [suf Hsuf].
  destruct (dropWhile_suffix isSpace s) as (pre & Hs & _).
  rewrite Hs, Hsuf. rewrite !elem_of_app. auto.
Qed.

Lemma trim_head s c : head (trim s) = Some c -> isSpace c = false.
Proof.
  unfold trim, trimStart. intros Hc.
  destruct (trimEnd_prefix (dropWhile isSpace s)) as [suf Hsuf].
  apply (dropWhile_head isSpace s). rewrite Hsuf.
  by destruct (trimEnd (dropWhile isSpace s)).
Qed.

Lemma trim_last s c : last (trim s) = Some c -> isSpace c = false.
Proof.
  unfold trim, trimEnd. rewrite last_reverse. apply dropWhile_head.
Qed.

Lemma parseLine_key line k v :
  parseLine line = Some (k, v) ->
  k <> [] /\ (58 ∉ k)
  /\ (forall c, head k = Some c -> isSpace c = false)
  /\ (forall c, last k = Some c -> isSpace c = false).
Proof.
  unfold parseLine. destruct (indexOf 58 line) as [i|] eqn:Hi; [|done].
  case_bool_decide as Hkey; [done|].
  intros Hsome. apply (inj Some), pair_equal_spec in Hsome as [<- _].
  split; [done|]. split.
  - intros Hin. apply trim_sub in Hin. by apply (indexOf_some _ _ _ Hi).
  - split; [apply trim_head | apply trim_last].
Qed.

End Blocks.

(** X5.  What a further line does to the map of the block before it.  A
    line with a colon and a non-blank key (other than [__proto__]) puts its
    value under its key, overwriting an earlier value of that key, and
    leaves every other key as it was.  A line without a colon, and a line
    whose key is blank, change nothing. *)
Theorem further_line_updates_map (block line : jsstring) :
  LF ∉ line ->
  let m := FrontMatter.parseLines (block ++ LF :: line) in
  (forall before after,
     line = before ++ 58 :: after ->
     58 ∉ before -> trim before <> [] -> trim before <> lit "__proto__" ->
     m !! trim before = Some (FrontMatter.stripQuotes (trim after))
     /\ forall k, k <> trim before ->
                  m !! k = FrontMatter.parseLines block !! k)
  /\ ((58 ∉ line)
      \/ (exists before after,
            line = before ++ 58 :: after /\ (58 ∉ before) /\ trim before = []) ->
      m = FrontMatter.parseLines block).
Proof.
  intros Hlf m. subst m. rewrite (parseLines_snoc _ _ Hlf).
  unfold FrontMatter.reducer. split.
  - intros before after -> Hcolon Hkey Hproto.
    rewrite (parseLine_colon _ _ Hcolon Hkey). unfold FrontMatter.setProperty.
    rewrite bool_decide_eq_false_2 by done. split.
    + apply lookup_insert_eq.
    + intros k Hk. by apply lookup_insert_ne.
  - unfold FrontMatter.parseLine.
    intros [Hnone|(before & after & -> & Hcolon & Hblank)].
    + by rewrite (indexOf_none _ _ Hnone).
    + rewrite (indexOf_first _ _ _ Hcolon), take_app_length, Hblank.
      by rewrite bool_decide_eq_true_2.
Qed.

Lemma further_line_updates_map_witness :
  FrontMatter.parseLines
    ((lit "title: Old" ++ [LF] ++ lit "date: 2024-01-15")
     ++ LF :: lit "title" ++ 58 :: lit " New")
  !! lit "title" = Some (lit "New")
  /\ FrontMatter.parseLines (lit "title: A" ++ LF :: lit "just a remark")
     = FrontMatter.parseLines (lit "title: A").
Proof.
  split.
  - apply (proj1 (further_line_updates_map
                    (lit "title: Old" ++ [LF] ++ lit "date: 2024-01-15")
                    (lit "title" ++ 58 :: lit " New") ltac:(absent))
             (lit "title") (lit " New") eq_refl
             ltac:(absent) ltac:(by vm_compute) ltac:(by vm_compute)).
  - apply (proj2 (further_line_updates_map (lit "title: A")
                    (lit "just a remark") ltac:(absent))).
    left. absent.
Defined.

(** X6.  Every key of a parsed block is non-empty, holds no colon, begins
    and ends with a character that is not white space, and is not
    [__proto__]. *)
Theorem parsed_keys_are_clean (block k v : jsstring) :
  FrontMatter.parseLines block !! k = Some v ->
  k <> [] /\ (58 ∉ k) /\ k <> lit "__proto__"
  /\ (forall c, head k = Some c -> isSpace c = false)
  /\ (forall c, last k = Some c -> isSpace c = false).
Proof.
  unfold FrontMatter.parseLines.
  assert (Hinv : forall lines (m : gmap (list N) (list N)),
            (forall k v, m !! k = Some v ->
               k <> [] /\ (58 ∉ k) /\ k <> lit "__proto__"
               /\ (forall c, head k = Some c -> isSpace c = false)
               /\ (forall c, last k = Some c -> isSpace c = false)) ->
            forall k v, foldl FrontMatter.reducer m lines !! k = Some v ->
               k <> [] /\ (58 ∉ k) /\ k <> lit "__proto__"
               /\ (forall c, head k = Some c -> isSpace c = false)
               /\ (forall c, last k = Some c -> isSpace c = false)).
  { induction lines as [|line lines IH]; intros m Hm; [exact Hm|].
    cbn [foldl]. apply IH. intros k' v'.
    unfold FrontMatter.reducer.
    destruct (FrontMatter.parseLine line) as [[key value]|] eqn:Hline;
      [|apply Hm].
    unfold FrontMatter.setProperty. case_bool_decide as Hproto; [apply Hm|].
    destruct (decide (key = k')) as [<-|Hne].
    - intros _. destruct (parseLine_key _ _ _ Hline) as (? & ? & ? & ?).
      done.
    - rewrite lookup_insert_ne by done. apply Hm. }
  apply Hinv. intros k' v'. by rewrite lookup_empty.
Qed.

Lemma parsed_keys_are_clean_witness :
  lit "title" <> [] /\ (58 ∉ lit "title").
Proof.
  destruct (parsed_keys_are_clean
              (lit "  title : A" ++ [LF] ++ lit "__proto__: x")
              (lit "title") (lit "A") ltac:(by vm_compute))
    as (H1 & H2 & _).
  by split.
Defined.

(** ** FilenameInference: dates, and titles that are never empty *)

Section Dates.
Implicit Types (s tail filename : jsstring).

Lemma digit_not c x : isDigit c = true -> isDigit x = false -> eqc c x = false.
Proof.
  intros Hc Hx. destruct (eqc c x) eqn:E; [|done].
  apply eqc_true in E as ->. congruence.
Qed.

Lemma replaceChar_digits s :
  allDigits s -> replaceChar 95 (lit "-") s = s.
Proof.
  induction 1 as [|c s Hc Hs IH]; [done|]. cbn [replaceChar].
  by rewrite (digit_not c 95 Hc eq_refl), IH.
Qed.

Lemma keep_all f s : Forall (fun c => f c = true) s -> keep f s = s.
Proof.
  unfold keep. induction 1 as [|c s Hc Hs IH]; [done|].
  by rewrite filter_cons_True, IH.
Qed.

Lemma keep_Forall f s : Forall (fun c => f c = true) (keep f s).
Proof.
  unfold keep. apply Forall_forall. intros c Hc.
  by apply list_elem_of_filter in Hc as [Hc _].
Qed.

Lemma splitOn_first sep token c rest :
  Forall (fun x => sep x = false) token -> sep c = true ->
  splitOn sep (token ++ c :: rest) = token :: splitOn sep rest.
Proof.
  intros Htoken Hc. induction Htoken as [|x token Hx Htoken IH].
  - cbn [app splitOn]. by rewrite Hc.
  - rewrite <- app_comm_cons. cbn [splitOn]. by rewrite Hx, IH.
Qed.

Lemma matchDashedDate_chars base d :
  ReviewsList.matchDashedDate base = Some d -> Forall dateChar d.
Proof.
  unfold ReviewsList.matchDashedDate.
  destruct base as [|y1 [|y2 [|y3 [|y4 [|h1 [|m1 [|m2 [|h2 [|d1 [|d2 tail]]]]]]]]]];
    try (intros; discriminate).
  destruct (_ && _) eqn:E; [|done].
  intros Hsome. apply (inj Some) in Hsome as <-.
  rewrite !andb_true_iff, !eqc_true in E.
  destruct E as [[[[[[[[[? ?] ?] ?] ->] ?] ?] ->] ?] ?].
  cbn [take]. unfold dateChar.
  repeat (apply Forall_cons; split; [first [by left | by right]|]).
  by apply Forall_nil.
Qed.

Lemma matchCompactDate_chars base d :
  ReviewsList.matchCompactDate base = Some d -> Forall dateChar d.
Proof.
  unfold ReviewsList.matchCompactDate.
  destruct (_ && _) eqn:E; [|done].
  intros Hsome. apply (inj Some) in Hsome as <-.
  apply andb_true_iff in E as [_ E]. apply forallb_all in E.
  eapply Forall_impl; [exact E|]. by left.
Qed.

Lemma keep_dateChar s :
  Forall dateChar (keep (fun c => isDigit c || eqc c 45) s).
Proof.
  eapply Forall_impl; [apply keep_Forall|]. intros c Hc. cbv beta in Hc.
  apply orb_true_iff in Hc as [Hc|Hc]; [by left|right; by apply eqc_true].
Qed.

End Dates.

(** X7.  A derived date holds digits and dashes only, in both views and
    for every file name. *)
Theorem derived_date_is_digits_and_dashes (filename : jsstring) :
  Forall dateChar (ReviewsList.deriveDateFromFilename filename)
  /\ Forall dateChar (Review.deriveDateFromFilename filename).
Proof.
  split.
  - unfold ReviewsList.deriveDateFromFilename. cbv zeta.
    destruct (ReviewsList.matchDashedDate _) as [d|] eqn:E1;
      [by apply matchDashedDate_chars in E1|].
    destruct (ReviewsList.matchCompactDate _) as [d|] eqn:E2;
      [by apply matchCompactDate_chars in E2|].
    apply keep_dateChar.
  - unfold Review.deriveDateFromFilename. cbv zeta. apply keep_dateChar.
Qed.

Lemma dashed_date_from_filename
        (filename tail : jsstring) (y1 y2 y3 y4 s1 m1 m2 s2 d1 d2 : N) :
  stripMd filename = [y1; y2; y3; y4; s1; m1; m2; s2; d1; d2] ++ tail ->
  allDigits [y1; y2; y3; y4; m1; m2; d1; d2] ->
  (s1 = 45 \/ s1 = 95) -> (s2 = 45 \/ s2 = 95) ->
  ReviewsList.deriveDateFromFilename filename
  = [y1; y2; y3; y4; 45; m1; m2; 45; d1; d2].
Proof.
  intros Hbase Hd Hs1 Hs2. unfold ReviewsList.deriveDateFromFilename.
  cbv zeta. rewrite Hbase.
  repeat (apply Forall_cons in Hd as [? Hd]).
  cbn [app replaceChar].
  rewrite (digit_not y1 95), (digit_not y2 95), (digit_not y3 95),
    (digit_not y4 95), (digit_not m1 95), (digit_not m2 95),
    (digit_not d1 95), (digit_not d2 95) by done.
  assert (E1 : (if eqc s1 95 then lit "-" else [s1]) = [45])
    by (destruct Hs1 as [-> | ->]; done).
  assert (E2 : (if eqc s2 95 then lit "-" else [s2]) = [45])
    by (destruct Hs2 as [-> | ->]; done).
  rewrite E1, E2. cbn [app ReviewsList.matchDashedDate].
  replace (_ && _) with true; [done|]. symmetry.
  rewrite !andb_true_iff, !eqc_true. repeat split; done.
Qed.

Lemma compact_date_from_filename (filename compact tail : jsstring) :
  stripMd filename = compact ++ tail ->
  length compact = 8%nat -> allDigits compact ->
  ReviewsList.deriveDateFromFilename filename = compact.
Proof.
  intros Hbase Hlen Hd. unfold ReviewsList.deriveDateFromFilename.
  cbv zeta. rewrite Hbase, replaceChar_app, (replaceChar_digits _ Hd).
  destruct compact as [|c1 [|c2 [|c3 [|c4 [|c5 [|c6 [|c7 [|c8 [|]]]]]]]]];
    try done.
  pose proof Hd as Hall.
  repeat (apply Forall_cons in Hd as [? Hd]).
  assert (Hdash : ReviewsList.matchDashedDate
                    ([c1; c2; c3; c4; c5; c6; c7; c8]
                     ++ replaceChar 95 (lit "-") tail) = None).
  { cbn [app ReviewsList.matchDashedDate].
    destruct (replaceChar 95 (lit "-") tail) as [|t1 [|t2 rest]]; try done;
      rewrite (digit_not c5 45) by done;
      by rewrite !andb_false_r. }
  rewrite Hdash. unfold ReviewsList.matchCompactDate.
  rewrite take_app_length' by done. rewrite length_app.
  replace (8 <=? _ + _)%nat with true by (symmetry; apply Nat.leb_le; simpl; lia).
  by rewrite (proj2 (forallb_all isDigit _) Hall).
Qed.

(** X8.  The date of a file name in the list view.  A name that begins
    with a date written with dashes or underscores, [YYYY-MM-DD] or
    [YYYY_MM_DD] or a mix, yields that date with dashes; a name that begins
    with eight digits yields those eight digits; in both cases whatever
    follows the date plays no part. *)
Theorem date_from_filename :
  (forall filename tail y1 y2 y3 y4 s1 m1 m2 s2 d1 d2,
     stripMd filename = [y1; y2; y3; y4; s1; m1; m2; s2; d1; d2] ++ tail ->
     allDigits [y1; y2; y3; y4; m1; m2; d1; d2] ->
     (s1 = 45 \/ s1 = 95) -> (s2 = 45 \/ s2 = 95) ->
     ReviewsList.deriveDateFromFilename filename
     = [y1; y2; y3; y4; 45; m1; m2; 45; d1; d2])
  /\ (forall filename compact tail,
        stripMd filename = compact ++ tail ->
        length compact = 8%nat -> allDigits compact ->
        ReviewsList.deriveDateFromFilename filename = compact).
Proof.
  split.
  - intros. by eapply dashed_date_from_filename.
  - intros. by eapply compact_date_from_filename.
Qed.

Lemma date_from_filename_witness :
  ReviewsList.deriveDateFromFilename (lit "2024_01-15_my-review" ++ lit ".md")
  = lit "2024-01-15"
  /\ ReviewsList.deriveDateFromFilename (lit "20240115-slug" ++ lit ".md")
     = lit "20240115".
Proof.
  split.
  - apply (proj1 date_from_filename _ (lit "_my-review")
             50 48 50 52 95 48 49 45 49 53).
    + by rewrite stripMd_suffix.
    + repeat constructor.
    + by right.
    + by left.
  - apply (proj2 date_from_filename _ (lit "20240115") (lit "-slug")).
    + by rewrite stripMd_suffix.
    + done.
    + repeat constructor.
Defined.

(** X9.  In the detail view the date is read from the text before the
    first underscore: what that token holds of digits and dashes, hence the
    token itself when it holds nothing else. *)
Theorem detail_date_is_first_token (token rest : jsstring) :
  95 ∉ token ->
  Review.deriveDateFromFilename (token ++ 95 :: rest)
  = keep (fun c => isDigit c || eqc c 45) token
  /\ (Forall dateChar token ->
      Review.deriveDateFromFilename (token ++ 95 :: rest) = token).
Proof.
  intros Htoken.
  assert (Hdate : Review.deriveDateFromFilename (token ++ 95 :: rest)
                  = keep (fun c => isDigit c || eqc c 45) token).
  { unfold Review.deriveDateFromFilename, split. cbv zeta.
    rewrite splitOn_first; [done| |done].
    apply Forall_forall. intros x Hx. destruct (eqc x 95) eqn:E; [|done].
    apply eqc_true in E as ->. done. }
  split; [exact Hdate|]. intros Hchars. rewrite Hdate. apply keep_all.
  eapply Forall_impl; [exact Hchars|]. intros c [Hc| ->]; [|done].
  by rewrite Hc.
Qed.

Lemma detail_date_is_first_token_witness :
  Review.deriveDateFromFilename (lit "2024-01-15" ++ 95 :: lit "my-review.md")
  = lit "2024-01-15".
Proof.
  apply (proj2 (detail_date_is_first_token (lit "2024-01-15") (lit "my-review.md")
                  ltac:(absent))).
  unfold dateChar.
  repeat (apply Forall_cons; split; [first [by left | by right]|]).
  by apply Forall_nil.
Defined.

(** X10.  A derived title is empty only for want of a name: in the list
    view exactly when the name without its suffix is empty, in the detail
    view exactly when the file name is empty. *)
Theorem derived_title_empty_iff (filename : jsstring) :
  (ReviewsList.deriveTitleFromFilename filename = [] <-> stripMd filename = [])
  /\ (Review.deriveTitleFromFilename filename = [] <-> filename = []).
Proof.
  split.
  - unfold ReviewsList.deriveTitleFromFilename. cbv zeta.
    destruct (ReviewsList.matchDatedSlug (stripMd filename)) as [rest|] eqn:E.
    + apply matchDatedSlug_spec in E
        as (y1 & y2 & y3 & y4 & m1 & m2 & d1 & d2 & sep & Hbase & _ & _ & Hne & _).
      rewrite Hbase. split; [done|]. by intros [=].
    + rewrite afterFirstToken_spec.
      destruct (afterUnderscore (stripMd filename)) eqn:Ha; [done|].
      split; [done|]. intros Hb. by rewrite Hb in Ha.
  - unfold Review.deriveTitleFromFilename. rewrite drop_first_token.
    destruct (afterUnderscore (stripMd filename)) eqn:Ha; [done|].
    split; [done|]. intros ->. done.
Qed.

(** ** ReviewCatalog: what a returned record is *)

Lemma omap_length_le {A B : Type} (f : A -> option B) (l : list A) :
  (length (omap f l) <= length l)%nat.
Proof.
  induction l as [|x l IH]; [done|]. cbn [omap list_omap].
  destruct (f x); simpl; lia.
Qed.

Lemma fetchReviewMetadata_some env filename r :
  ReviewsList.fetchReviewMetadata env filename = Some r ->
  ReviewsList.title r <> [] /\ ReviewsList.date r <> []
  /\ filename <> []
  /\ exists encoded text,
       encodeURIComponent env filename = Some encoded
       /\ fetchText env (lit "reviews/" ++ encoded) = Some text
       /\ ReviewsList.url r = lit "review.html?file=" ++ encoded.
Proof.
  unfold ReviewsList.fetchReviewMetadata.
  case_bool_decide as Hname; [done|].
  destruct (encodeURIComponent env filename) as [encoded|] eqn:Henc; [|done].
  cbn [mbind option_bind].
  destruct (fetchText env (lit "reviews/" ++ encoded)) as [text|] eqn:Hf;
    [|done].
  cbn [mbind option_bind]. cbv zeta.
  case_bool_decide as Ht; [done|]. case_bool_decide as Hd; [done|].
  destruct (bool_decide _); [done|]. cbn [orb].
  intros Hsome. apply (inj Some) in Hsome as <-. cbn.
  repeat split; try done. by exists encoded, text.
Qed.

(** X11.  The list view never shows a record without a title or a date:
    every record [loadReviews] returns has both non-empty, stems from one
    of the files, whose name the host could encode and whose document it
    could fetch, and links to the detail page of that file.  No more
    records come back than files went in. *)
Theorem catalog_records_are_complete (env : Env) (files : list jsstring)
        (r : ReviewsList.ReviewMeta) :
  r ∈ ReviewsList.loadReviews env files ->
  ReviewsList.title r <> [] /\ ReviewsList.date r <> []
  /\ (exists filename encoded text,
        filename ∈ files /\ filename <> []
        /\ encodeURIComponent env filename = Some encoded
        /\ fetchText env (lit "reviews/" ++ encoded) = Some text
        /\ ReviewsList.url r = lit "review.html?file=" ++ encoded)
  /\ (length (ReviewsList.loadReviews env files) <= length files)%nat.
Proof.
  intros Hr. rewrite loadReviews_sort in *.
  rewrite (sort_perm (ReviewsList.byDateDescending env)) in Hr.
  assert (Hlen : (length (ArraySort.sort (ReviewsList.byDateDescending env)
                            (retained env files)) <= length files)%nat).
  { rewrite (sort_perm (ReviewsList.byDateDescending env)). unfold retained.
    etrans; [apply omap_length_le|]. by rewrite length_fmap. }
  unfold retained in Hr. apply list_elem_of_omap in Hr as (o & Ho & Hid).
  apply list_elem_of_fmap in Ho as (filename & -> & Hin).
  cbn in Hid.
  destruct (fetchReviewMetadata_some _ _ _ Hid)
    as (Ht & Hd & Hn & encoded & text & He & Hf & Hu).
  split; [done|]. split; [done|]. split; [|done].
  by exists filename, encoded, text.
Qed.

Lemma catalog_records_are_complete_witness :
  let env := SampleHost.host (2026, 11, 3)%Z (lit "ko")
               SampleHost.threeReviews in
  let r := {| ReviewsList.title := lit "March";
              ReviewsList.date := lit "2024-03-01";
              ReviewsList.url := lit "review.html?file=march.md" |} in
  ReviewsList.title r <> [] /\ ReviewsList.date r <> [].
Proof.
  intros env r.
  destruct (catalog_records_are_complete env
              [lit "nope.md"; lit "march.md"] r) as (Ht & Hd & _).
  - replace (ReviewsList.loadReviews env [lit "nope.md"; lit "march.md"])
      with [r] by (by vm_compute).
    apply list_elem_of_here.
  - by split.
Defined.

(** ** RelativeDateFormatter: the numbers shown *)

(** X12.  The counts a phrase can carry.  A week phrase shows 1, 2 or 3;
    a month phrase shows 0 to 11, and 0 exactly for differences of 28 and
    29 days; a year phrase shows 0 for differences of 360 to 364 days and
    at least 1 from 365 days on. *)
Theorem relative_date_counts (env : Env) (value : jsstring)
        (parsed todayMidnight targetMidnight : Z) :
  value <> [] ->
  ReviewsList.parseDate env value = Some parsed ->
  ReviewsList.midnightOf env (now env) = Some todayMidnight ->
  ReviewsList.midnightOf env parsed = Some targetMidnight ->
  let diffDays := ((todayMidnight - targetMidnight) `div` 86400000)%Z in
  let copy := ReviewsList.TEXT (activeLang env) in
  let out := ReviewsList.formatRelativeDate env value in
  ((7 <= diffDays <= 27)%Z ->
   exists n, (1 <= n <= 3)%Z /\ out = ReviewsList.week copy (Some n))
  /\ ((28 <= diffDays <= 29)%Z -> out = ReviewsList.month copy (Some 0%Z))
  /\ ((30 <= diffDays <= 359)%Z ->
      exists n, (1 <= n <= 11)%Z /\ out = ReviewsList.month copy (Some n))
  /\ ((360 <= diffDays <= 364)%Z -> out = ReviewsList.year copy (Some 0%Z))
  /\ ((365 <= diffDays)%Z ->
      exists n, (1 <= n)%Z /\ out = ReviewsList.year copy (Some n)).
Proof.
  intros Hv Hp Ht0 Ht1 diffDays copy out. subst out copy.
  rewrite (format_parsed env _ _ Hv Hp).
  unfold ReviewsList.diffDaysOf. rewrite Ht0, Ht1. fold diffDays.
  destruct (bucket_cases env diffDays) as (_ & _ & Hw & Hm & Hy).
  split; [|split; [|split; [|split]]]; intros Hdd.
  - exists (diffDays `div` 7)%Z. split; [|by apply Hw].
    split; [apply Z.div_le_lower_bound; lia
           |assert (diffDays `div` 7 < 4)%Z
              by (apply Z.div_lt_upper_bound; lia); lia].
  - assert (diffDays `div` 30 = 0)%Z as E by (apply Z.div_small; lia).
    rewrite Hm by lia. by rewrite E.
  - assert (1 <= diffDays `div` 30)%Z by (apply Z.div_le_lower_bound; lia).
    assert (diffDays `div` 30 < 12)%Z by (apply Z.div_lt_upper_bound; lia).
    exists (diffDays `div` 30)%Z. split; [lia|]. apply Hm; lia.
  - assert (12 <= diffDays `div` 30)%Z by (apply Z.div_le_lower_bound; lia).
    assert (diffDays `div` 365 = 0)%Z as E by (apply Z.div_small; lia).
    rewrite Hy by lia. by rewrite E.
  - assert (12 <= diffDays `div` 30)%Z by (apply Z.div_le_lower_bound; lia).
    assert (1 <= diffDays `div` 365)%Z by (apply Z.div_le_lower_bound; lia).
    exists (diffDays `div` 365)%Z. split; [lia|]. apply Hy; lia.
Qed.

Lemma relative_date_counts_witness :
  let env := SampleHost.host (2026, 11, 3)%Z (lit "en") [] in
  ReviewsList.formatRelativeDate env (lit "2026-10-05") = lit "0 months ago"
  /\ ReviewsList.formatRelativeDate env (lit "2025-11-08") = lit "0 years ago".
Proof.
  intros env. split.
  - apply (proj1 (proj2
      (relative_date_counts env (lit "2026-10-05")
         1791158400000 1793664000000 1791158400000
         ltac:(done) ltac:(by vm_compute) ltac:(by vm_compute)
         ltac:(by vm_compute)))).
    by vm_compute.
  - apply (proj1 (proj2 (proj2 (proj2
      (relative_date_counts env (lit "2025-11-08")
         1762560000000 1793664000000 1762560000000
         ltac:(done) ltac:(by vm_compute) ltac:(by vm_compute)
         ltac:(by vm_compute)))))).
    by vm_compute.
Defined.

(** X13.  Which copy a phrase comes from.  A page language that begins
    with [en] gives the English phrases; every other page language, the
    empty one included, gives the Korean ones. *)
Theorem phrase_follows_page_language (env : Env) (n : option Z) :
  (startsWith (lit "en") (documentLang env) = true ->
   ReviewsList.relative env n ReviewsList.Day
   = numberToString n ++ lit " days ago"
   /\ ReviewsList.relative env n ReviewsList.Week
      = numberToString n ++ lit " weeks ago"
   /\ ReviewsList.relative env n ReviewsList.Month
      = numberToString n ++ lit " months ago"
   /\ ReviewsList.relative env n ReviewsList.Year
      = numberToString n ++ lit " years ago")
  /\ (startsWith (lit "en") (documentLang env) = false ->
      ReviewsList.relative env n ReviewsList.Day
      = numberToString n ++ [0xC77C; 32; 0xC804]
      /\ ReviewsList.relative env n ReviewsList.Week
         = numberToString n ++ [0xC8FC; 32; 0xC804]
      /\ ReviewsList.relative env n ReviewsList.Month
         = numberToString n ++ [0xB2EC; 32; 0xC804]
      /\ ReviewsList.relative env n ReviewsList.Year
         = numberToString n ++ [0xB144; 32; 0xC804]).
Proof.
  split; intros Hlang; unfold ReviewsList.relative; cbv zeta.
  - destruct (documentLang env) as [|c t]; [done|]. by rewrite Hlang.
  - destruct (documentLang env) as [|c t]; [done|]. by rewrite Hlang.
Qed.

Lemma phrase_follows_page_language_witness :
  ReviewsList.relative (SampleHost.host (2026, 11, 3)%Z (lit "en-GB") [])
    (Some 3%Z) ReviewsList.Day = lit "3 days ago"
  /\ ReviewsList.relative (SampleHost.host (2026, 11, 3)%Z [] [])
       (Some 3%Z) ReviewsList.Day = lit "3" ++ [0xC77C; 32; 0xC804].
Proof.
  split.
  - apply (proj1 (proj1 (phrase_follows_page_language
                           (SampleHost.host (2026, 11, 3)%Z (lit "en-GB") [])
                           (Some 3%Z)) eq_refl)).
  - apply (proj1 (proj2 (phrase_follows_page_language
                           (SampleHost.host (2026, 11, 3)%Z [] [])
                           (Some 3%Z)) eq_refl)).
Defined.

Lemma replaceChar_no_digit c r s :
  isDigit c = false -> allDigits s -> replaceChar c r s = s.
Proof.
  intros Hc. induction 1 as [|x s Hx Hs IH]; [done|].
  cbn [replaceChar]. by rewrite (digit_not x c Hx Hc), IH.
Qed.

(** X14.  A compact date the host cannot read as it stands is read as
    [YYYY-MM-DD]: for a value that trims to eight digits, [parseDate] asks
    the host for the dashed form, and fails only if that fails too. *)
Theorem compact_value_is_reread (env : Env) (value y m d : jsstring) :
  trim value = y ++ m ++ d ->
  length y = 4%nat -> length m = 2%nat -> length d = 2%nat ->
  allDigits (y ++ m ++ d) ->
  Date_parse env (y ++ m ++ d) = None ->
  ReviewsList.parseDate env value
  = Date_parse env (y ++ lit "-" ++ m ++ lit "-" ++ d).
Proof.
  intros Htrim Hy Hm Hd Hdigits Hdirect. unfold ReviewsList.parseDate.
  cbv zeta. rewrite Htrim.
  rewrite (replaceChar_no_digit 46), (replaceChar_no_digit 47), Hdirect
    by done.
  unfold ReviewsList.isEightDigits.
  rewrite (proj2 (forallb_all isDigit _) Hdigits), !length_app, Hy, Hm, Hd.
  cbn [Nat.add Nat.eqb andb].
  assert (H4 : take 4 (y ++ m ++ d) = y) by (by apply take_app_length').
  assert (H5 : drop 4 (y ++ m ++ d) = m ++ d) by (by apply drop_app_length').
  assert (H6 : drop 6 (y ++ m ++ d) = d).
  { rewrite app_assoc. apply drop_app_length'. rewrite length_app. lia. }
  rewrite H4, H5, H6, (take_app_length' m d) by done.
  by rewrite take_ge by lia.
Qed.

Lemma compact_value_is_reread_witness :
  ReviewsList.parseDate (SampleHost.host (2026, 11, 3)%Z (lit "ko") [])
    (lit " 20240115 ")
  = Some 1705276800000%Z.
Proof.
  rewrite (compact_value_is_reread _ _ (lit "2024") (lit "01") (lit "15")).
  - by vm_compute.
  - by vm_compute.
  - done.
  - done.
  - done.
  - repeat constructor.
  - by vm_compute.
Defined.

(** ** MarkdownRenderer: escaping and inline markup, further *)

Section InlineMore.
Import Review.
Implicit Types (s x y a b : jsstring).

Lemma escapeHtml_char c : escapeHtml [c] = escapeChar c.
Proof.
  unfold escapeHtml, escapeChar. cbn [replaceChar].
  destruct (eqc c 38) eqn:E38; [done|]. cbn [app replaceChar].
  destruct (eqc c 60) eqn:E60; [done|]. cbn [app replaceChar].
  by destruct (eqc c 62).
Qed.

Lemma escapeHtml_cons c s : escapeHtml (c :: s) = escapeChar c ++ escapeHtml s.
Proof.
  change (c :: s) with ([c] ++ s). by rewrite escapeHtml_app, escapeHtml_char.
Qed.

Lemma unescape_escapeChar c rest :
  unescapeHtml 0 (escapeChar c ++ rest) = c :: unescapeHtml 0 rest.
Proof.
  unfold escapeChar.
  destruct (eqc c 38) eqn:E38.
  { apply eqc_true in E38 as ->.
    change (lit "&amp;" ++ rest) with (38 :: lit "amp;" ++ rest).
    cbn [unescapeHtml].
    change (38 :: lit "amp;" ++ rest) with (lit "&amp;" ++ rest).
    by rewrite startsWith_app. }
  destruct (eqc c 60) eqn:E60.
  { by apply eqc_true in E60 as ->. }
  destruct (eqc c 62) eqn:E62.
  { by apply eqc_true in E62 as ->. }
  cbn [app unescapeHtml].
  change (lit "&amp;") with (38 :: lit "amp;").
  change (lit "&lt;") with (38 :: lit "lt;").
  change (lit "&gt;") with (38 :: lit "gt;").
  cbn [startsWith].
  assert (E : eqc 38 c = false).
  { destruct (eqc 38 c) eqn:E; [|done]. apply eqc_true in E as <-. done. }
  by rewrite E.
Qed.

Lemma unescape_escape s : unescapeHtml 0 (escapeHtml s) = s.
Proof.
  induction s as [|c s IH]; [done|].
  by rewrite escapeHtml_cons, unescape_escapeChar, IH.
Qed.

Lemma escapeHtml_noDelimiter s :
  Forall noDelimiter s -> Forall noDelimiter (escapeHtml s).
Proof.
  intros Hs. unfold escapeHtml.
  repeat (apply replaceChar_Forall;
          [unfold noDelimiter; repeat (apply Forall_cons; split; [done|]);
           by apply Forall_nil|];
          eapply Forall_impl; [|by intros ? H ?; exact H]).
  exact Hs.
Qed.

Lemma replaceSpans_step_copy ok d otag ctag c s :
  startsWith d (c :: s) = false
  \/ lazySpan ok d (drop (length d) (c :: s)) = None ->
  replaceSpans ok d otag ctag 0 (c :: s)
  = c :: replaceSpans ok d otag ctag 0 s.
Proof.
  intros H. cbn [replaceSpans].
  destruct (startsWith d (c :: s)); [|done].
  destruct H as [H|H]; [done|]. by rewrite H.
Qed.

Lemma replaceSpans_app_absent ok h d' otag ctag a b :
  Forall (fun c => c <> h) a ->
  replaceSpans ok (h :: d') otag ctag 0 (a ++ b)
  = a ++ replaceSpans ok (h :: d') otag ctag 0 b.
Proof.
  induction 1 as [|x a Hx Ha IH]; [done|].
  rewrite <- !app_comm_cons, replaceSpans_step_copy, IH; [done|].
  left. cbn [startsWith].
  destruct (eqc h x) eqn:E; [|done]. by apply eqc_true in E.
Qed.

Lemma lazySpan_absent ok h d' s :
  Forall (fun c => c <> h) s -> lazySpan ok (h :: d') s = None.
Proof.
  induction 1 as [|c s Hc Hs IH]; [done|]. cbn [lazySpan].
  destruct (ok c); [|done]. rewrite IH.
  destruct Hs as [|x s Hx Hs]; [done|]. cbn [startsWith].
  destruct (eqc h x) eqn:E; [|done]. by apply eqc_true in E.
Qed.

(** A single delimiter character between texts that hold none is copied. *)
Lemma replaceSpans_lone ok h d' otag ctag a b :
  Forall (fun c => c <> h) a -> Forall (fun c => c <> h) b ->
  replaceSpans ok (h :: d') otag ctag 0 (a ++ h :: b) = a ++ h :: b.
Proof.
  intros Ha Hb. rewrite replaceSpans_app_absent by done.
  rewrite replaceSpans_step_copy, replaceSpans_absent; [done|done|].
  right. cbn [length drop]. apply lazySpan_absent. by apply Forall_drop.
Qed.

(** A pair of single delimiters is no match for the doubled delimiter. *)
Lemma replaceSpans_pair_under_double ok h otag ctag y :
  y <> [] -> Forall (fun c => c <> h) y ->
  replaceSpans ok [h; h] otag ctag 0 (h :: y ++ [h]) = h :: y ++ [h].
Proof.
  intros Hy Hall. rewrite replaceSpans_step_copy.
  2:{ left. destruct Hall as [|x y Hx Hall]; [done|]. cbn [app startsWith].
      rewrite (proj2 (eqc_true h h) eq_refl).
      destruct (eqc h x) eqn:E; [|done]. by apply eqc_true in E. }
  f_equal. rewrite replaceSpans_app_absent by done.
  rewrite replaceSpans_step_copy; [done|]. left. cbn [startsWith].
  by rewrite (proj2 (eqc_true h h) eq_refl).
Qed.

Lemma plainChar_noDelimiter c : plainChar c = true -> noDelimiter c.
Proof. intros H. apply plainChar_ok in H as [[_ ?] [? ?]]. done. Qed.

Lemma tag_free (tag : jsstring) h :
  forallb (fun c => negb (eqc c h)) tag = true ->
  Forall (fun c => c <> h) tag.
Proof.
  intros H. apply forallb_all in H. eapply Forall_impl; [exact H|].
  intros c Hc ->. by rewrite (proj2 (eqc_true h h) eq_refl) in Hc.
Qed.

End InlineMore.

(** X15.  The three passes of [escapeHtml] amount to one pass that maps
    each character on its own: [&], [<] and [>] to their entities, every
    other character to itself.  In particular an [&] the entities bring in
    is not escaped a second time, and text without the three characters is
    unchanged. *)
Theorem escapeHtml_is_one_pass :
  Review.escapeHtml [] = []
  /\ (forall c s,
        Review.escapeHtml (c :: s) = escapeChar c ++ Review.escapeHtml s)
  /\ (forall s,
        Forall (fun c => c <> 38 /\ c <> 60 /\ c <> 62) s ->
        Review.escapeHtml s = s).
Proof.
  split; [done|]. split; [exact escapeHtml_cons|].
  induction 1 as [|c s (H38 & H60 & H62) Hs IH]; [done|].
  rewrite escapeHtml_cons, IH. unfold escapeChar.
  destruct (eqc c 38) eqn:E1; [by apply eqc_true in E1|].
  destruct (eqc c 60) eqn:E2; [by apply eqc_true in E2|].
  destruct (eqc c 62) eqn:E3; [by apply eqc_true in E3|]. done.
Qed.

Lemma escapeHtml_is_one_pass_witness :
  Review.escapeHtml (lit "plain text; no entities") = lit "plain text; no entities".
Proof.
  apply (proj2 (proj2 escapeHtml_is_one_pass)).
  repeat (apply Forall_cons; split; [done|]). by apply Forall_nil.
Defined.

(** X16.  Escaping loses nothing: the entities read back give the text
    again, so two different texts never escape to the same one. *)
Theorem escapeHtml_is_lossless :
  (forall s, unescapeHtml 0 (Review.escapeHtml s) = s)
  /\ (forall s t, s <> t -> Review.escapeHtml s <> Review.escapeHtml t).
Proof.
  split; [exact unescape_escape|].
  intros s t Hne H. apply Hne.
  by rewrite <- (unescape_escape s), H, unescape_escape.
Qed.

Lemma escapeHtml_is_lossless_witness :
  Review.escapeHtml (lit "&lt;") <> Review.escapeHtml (lit "<").
Proof.
  apply (proj2 escapeHtml_is_lossless (lit "&lt;") (lit "<")). done.
Defined.

(** X17.  Text without [*], [_] and a backtick gets no markup: inline
    formatting is escaping alone. *)
Theorem inline_without_delimiters (text : jsstring) :
  Forall noDelimiter text ->
  Review.inlineMarkdown text = Review.escapeHtml text.
Proof.
  intros Htext. apply escapeHtml_noDelimiter in Htext.
  unfold Review.inlineMarkdown. cbv zeta.
  set (y := Review.escapeHtml text) in *.
  change (lit "**") with (42 :: [42]). change (lit "__") with (95 :: [95]).
  change (lit "*") with (42 :: []). change (lit "_") with (95 :: []).
  change (lit "`") with (96 :: []).
  assert (H42 : Forall (fun c => c <> 42) y)
    by (eapply Forall_impl; [exact Htext|]; by intros c (? & ? & ?)).
  assert (H95 : Forall (fun c => c <> 95) y)
    by (eapply Forall_impl; [exact Htext|]; by intros c (? & ? & ?)).
  assert (H96 : Forall (fun c => c <> 96) y)
    by (eapply Forall_impl; [exact Htext|]; by intros c (? & ? & ?)).
  rewrite (replaceSpans_absent _ 42 [42]) by done.
  rewrite (replaceSpans_absent _ 95 [95]) by done.
  rewrite (replaceSpans_absent _ 42 []) by done.
  rewrite (replaceSpans_absent _ 95 []) by done.
  by rewrite (replaceSpans_absent _ 96 []).
Qed.

Lemma inline_without_delimiters_witness :
  Review.inlineMarkdown (lit "1 < 2 & 3 > 2") = lit "1 &lt; 2 &amp; 3 &gt; 2".
Proof.
  rewrite inline_without_delimiters; [by vm_compute|].
  unfold noDelimiter.
  repeat (apply Forall_cons; split; [done|]). by apply Forall_nil.
Defined.

(** The four pairs of delimiters besides the doubled asterisk. *)
Lemma emphasis_forms (x : jsstring) :
  x <> [] -> Forall (fun c => plainChar c = true) x ->
  Review.inlineMarkdown (lit "__" ++ x ++ lit "__")
  = lit "<strong>" ++ Review.escapeHtml x ++ lit "</strong>"
  /\ Review.inlineMarkdown (lit "*" ++ x ++ lit "*")
     = lit "<em>" ++ Review.escapeHtml x ++ lit "</em>"
  /\ Review.inlineMarkdown (lit "_" ++ x ++ lit "_")
     = lit "<em>" ++ Review.escapeHtml x ++ lit "</em>"
  /\ Review.inlineMarkdown (lit "`" ++ x ++ lit "`")
     = lit "<code>" ++ Review.escapeHtml x ++ lit "</code>".
Proof.
  intros Hx Hplain.
  pose proof (escapeHtml_plain x Hplain) as Hy.
  pose proof (escapeHtml_nonempty x Hx) as Hne.
  assert (Hfree : forall h, h = 42 \/ h = 95 \/ h = 96 ->
            Forall (fun c => c <> h) (Review.escapeHtml x)).
  { intros h Hh. eapply Forall_impl; [exact Hy|]. intros c Hc.
    apply plainChar_noDelimiter in Hc as (? & ? & ?).
    destruct Hh as [->|[->| ->]]; done. }
  assert (Hok : forall h, h = 42 \/ h = 95 ->
            Forall (fun c => anyButLineTerminator c = true /\ c <> h)
                   (Review.escapeHtml x)).
  { intros h Hh. eapply Forall_impl; [exact Hy|]. intros c Hc.
    apply plainChar_ok in Hc as [[? ?] [? ?]].
    destruct Hh as [->| ->]; done. }
  assert (Hcode : Forall (fun c => anyButBacktick c = true /\ c <> 96)
                         (Review.escapeHtml x)).
  { eapply Forall_impl; [exact Hy|]. intros c Hc.
    apply plainChar_ok in Hc as [[? ?] [? H96]]. split; [|done].
    unfold anyButBacktick. destruct (eqc c 96) eqn:E; [|done].
    by apply eqc_true in E. }
  assert (Htags : forall (otag ctag : jsstring) h,
            forallb (fun c => negb (eqc c h)) otag = true ->
            forallb (fun c => negb (eqc c h)) ctag = true ->
            h = 42 \/ h = 95 \/ h = 96 ->
            Forall (fun c => c <> h) (otag ++ Review.escapeHtml x ++ ctag)).
  { intros otag ctag h Ho Hc Hh. rewrite !Forall_app.
    split; [by apply tag_free|]. split; [by apply Hfree|by apply tag_free]. }
  unfold Review.inlineMarkdown. cbv zeta. rewrite !escapeHtml_app.
  change (Review.escapeHtml (lit "__")) with (lit "__").
  change (Review.escapeHtml (lit "*")) with (lit "*").
  change (Review.escapeHtml (lit "_")) with (lit "_").
  change (Review.escapeHtml (lit "`")) with (lit "`").
  set (y := Review.escapeHtml x) in *.
  change (lit "**") with (42 :: [42]). change (lit "__") with (95 :: [95]).
  change (lit "*") with (42 :: []). change (lit "_") with (95 :: []).
  change (lit "`") with (96 :: []).
  split; [|split; [|split]].
  - rewrite (replaceSpans_absent _ 42 [42]).
    2:{ rewrite !Forall_app. split; [by apply tag_free|].
        split; [apply Hfree; auto|by apply tag_free]. }
    rewrite (replaceSpans_one _ 95 [95]) by auto.
    rewrite (replaceSpans_absent _ 42 []) by (apply Htags; auto).
    rewrite (replaceSpans_absent _ 95 []) by (apply Htags; auto).
    by rewrite (replaceSpans_absent _ 96 []) by (apply Htags; auto).
  - cbn [app].
    rewrite (replaceSpans_pair_under_double _ 42) by auto.
    rewrite (replaceSpans_absent _ 95 [95]).
    2:{ apply Forall_cons. split; [done|]. rewrite Forall_app.
        split; [apply Hfree; auto|by apply tag_free]. }
    change (42 :: y ++ [42]) with ([42] ++ y ++ [42]).
    rewrite (replaceSpans_one _ 42 []) by auto.
    rewrite (replaceSpans_absent _ 95 []) by (apply Htags; auto).
    by rewrite (replaceSpans_absent _ 96 []) by (apply Htags; auto).
  - cbn [app].
    rewrite (replaceSpans_absent _ 42 [42]).
    2:{ apply Forall_cons. split; [done|]. rewrite Forall_app.
        split; [apply Hfree; auto|by apply tag_free]. }
    rewrite (replaceSpans_pair_under_double _ 95) by auto.
    rewrite (replaceSpans_absent _ 42 []).
    2:{ apply Forall_cons. split; [done|]. rewrite Forall_app.
        split; [apply Hfree; auto|by apply tag_free]. }
    change (95 :: y ++ [95]) with ([95] ++ y ++ [95]).
    rewrite (replaceSpans_one _ 95 []) by auto.
    by rewrite (replaceSpans_absent _ 96 []) by (apply Htags; auto).
  - assert (H96 : forall h, h = 42 \/ h = 95 ->
              Forall (fun c => c <> h) ([96] ++ y ++ [96])).
    { intros h Hh. rewrite !Forall_app.
      split; [apply tag_free; by destruct Hh as [->| ->]|].
      split; [apply Hfree; tauto|apply tag_free; by destruct Hh as [->| ->]]. }
    rewrite (replaceSpans_absent _ 42 [42]) by auto.
    rewrite (replaceSpans_absent _ 95 [95]) by auto.
    rewrite (replaceSpans_absent _ 42 []) by auto.
    rewrite (replaceSpans_absent _ 95 []) by auto.
    by rewrite (replaceSpans_one _ 96 []).
Qed.

(** C7.  Inline formatting escapes [&], [<] and [>] before any markup
    substitution runs, so the tags the substitutions emit are never
    escaped again: the escaped text holds no [<] or [>] of its own (every
    one in the output belongs to an emitted tag); for each of the five
    substitutions, plain text between its pair of delimiters is escaped
    while the tags around it stay as they are, [<strong>] for doubled
    asterisks and doubled underscores, [<em>] for single ones, [<code>]
    for backticks; and [<b>**x**</b>] renders to exactly
    [&lt;b&gt;<strong>x</strong>&lt;/b&gt;]. *)
Theorem escaping_precedes_markup :
  (forall text, Forall (fun c => c <> 60 /\ c <> 62) (Review.escapeHtml text))
  /\ (forall x,
        x <> [] -> Forall (fun c => plainChar c = true) x ->
        Review.inlineMarkdown (lit "**" ++ x ++ lit "**")
        = lit "<strong>" ++ Review.escapeHtml x ++ lit "</strong>"
        /\ Review.inlineMarkdown (lit "__" ++ x ++ lit "__")
           = lit "<strong>" ++ Review.escapeHtml x ++ lit "</strong>"
        /\ Review.inlineMarkdown (lit "*" ++ x ++ lit "*")
           = lit "<em>" ++ Review.escapeHtml x ++ lit "</em>"
        /\ Review.inlineMarkdown (lit "_" ++ x ++ lit "_")
           = lit "<em>" ++ Review.escapeHtml x ++ lit "</em>"
        /\ Review.inlineMarkdown (lit "`" ++ x ++ lit "`")
           = lit "<code>" ++ Review.escapeHtml x ++ lit "</code>")
  /\ Review.inlineMarkdown (lit "<b>**x**</b>")
     = lit "&lt;b&gt;<strong>x</strong>&lt;/b&gt;".
Proof.
  split; [exact escapeHtml_no_angle|]. split; [|by vm_compute].
  intros x Hx Hplain. split; [by apply bold_not_reescaped|].
  by apply emphasis_forms.
Qed.

Lemma escaping_precedes_markup_witness :
  Review.inlineMarkdown (lit "**" ++ lit "a<b & c>d" ++ lit "**")
  = lit "<strong>" ++ lit "a&lt;b &amp; c&gt;d" ++ lit "</strong>"
  /\ Review.inlineMarkdown (lit "_" ++ lit "a<b & c>d" ++ lit "_")
     = lit "<em>" ++ lit "a&lt;b &amp; c&gt;d" ++ lit "</em>"
  /\ Review.inlineMarkdown (lit "`" ++ lit "a<b & c>d" ++ lit "`")
     = lit "<code>" ++ lit "a&lt;b &amp; c&gt;d" ++ lit "</code>".
Proof.
  destruct (proj1 (proj2 escaping_precedes_markup) (lit "a<b & c>d")
              ltac:(done) ltac:(repeat constructor))
    as (Hbold & _ & _ & Hem & Hcode).
  split; [|split].
  - rewrite Hbold. by vm_compute.
  - rewrite Hem. by vm_compute.
  - rewrite Hcode. by vm_compute.
Defined.

(** X18.  Each pair of delimiters around plain text gives its element,
    with the text escaped inside: doubled underscores give [<strong>],
    single asterisks and single underscores give [<em>], backticks give
    [<code>]. *)
Theorem inline_emphasis_forms (x : jsstring) :
  x <> [] -> Forall (fun c => plainChar c = true) x ->
  Review.inlineMarkdown (lit "__" ++ x ++ lit "__")
  = lit "<strong>" ++ Review.escapeHtml x ++ lit "</strong>"
  /\ Review.inlineMarkdown (lit "*" ++ x ++ lit "*")
     = lit "<em>" ++ Review.escapeHtml x ++ lit "</em>"
  /\ Review.inlineMarkdown (lit "_" ++ x ++ lit "_")
     = lit "<em>" ++ Review.escapeHtml x ++ lit "</em>"
  /\ Review.inlineMarkdown (lit "`" ++ x ++ lit "`")
     = lit "<code>" ++ Review.escapeHtml x ++ lit "</code>".
Proof. apply emphasis_forms. Qed.

Lemma inline_emphasis_forms_witness :
  Review.inlineMarkdown (lit "`" ++ lit "a < b" ++ lit "`")
  = lit "<code>" ++ lit "a &lt; b" ++ lit "</code>".
Proof.
  apply (proj2 (proj2 (proj2 (inline_emphasis_forms (lit "a < b")
                                ltac:(done) ltac:(repeat constructor))))).
Defined.

(** X19.  A delimiter without a partner stays as it is: plain text around
    a single [*], [_] or backtick is escaped and nothing else. *)
Theorem stray_delimiter_is_literal (x y : jsstring) (delimiter : N) :
  delimiter = 42 \/ delimiter = 95 \/ delimiter = 96 ->
  Forall (fun c => plainChar c = true) x ->
  Forall (fun c => plainChar c = true) y ->
  Review.inlineMarkdown (x ++ delimiter :: y)
  = Review.escapeHtml x ++ delimiter :: Review.escapeHtml y.
Proof.
  intros Hd Hx Hy.
  apply escapeHtml_plain in Hx, Hy.
  assert (Hfree : forall (z : jsstring) h,
            Forall (fun c => plainChar c = true) z ->
            h = 42 \/ h = 95 \/ h = 96 -> Forall (fun c => c <> h) z).
  { intros z h Hz Hh. eapply Forall_impl; [exact Hz|]. intros c Hc.
    apply plainChar_noDelimiter in Hc as (? & ? & ?).
    destruct Hh as [->|[->| ->]]; done. }
  unfold Review.inlineMarkdown. cbv zeta.
  change (x ++ delimiter :: y) with (x ++ [delimiter] ++ y).
  rewrite !escapeHtml_app.
  assert (Hsame : Review.escapeHtml [delimiter] = [delimiter])
    by (destruct Hd as [->|[->| ->]]; done).
  rewrite Hsame. cbn [app].
  set (x' := Review.escapeHtml x) in *. set (y' := Review.escapeHtml y) in *.
  change (lit "**") with (42 :: [42]). change (lit "__") with (95 :: [95]).
  change (lit "*") with (42 :: []). change (lit "_") with (95 :: []).
  change (lit "`") with (96 :: []).
  assert (Hall : forall h, h = 42 \/ h = 95 \/ h = 96 -> h <> delimiter ->
            Forall (fun c => c <> h) (x' ++ delimiter :: y')).
  { intros h Hh Hne. rewrite Forall_app, Forall_cons.
    split; [by apply Hfree|]. split; [done|by apply Hfree]. }
  destruct Hd as [->|[->| ->]].
  - rewrite (replaceSpans_lone _ 42 [42]) by (apply Hfree; auto).
    rewrite (replaceSpans_absent _ 95 [95]) by (apply Hall; auto).
    rewrite (replaceSpans_lone _ 42 []) by (apply Hfree; auto).
    rewrite (replaceSpans_absent _ 95 []) by (apply Hall; auto).
    by rewrite (replaceSpans_absent _ 96 []) by (apply Hall; auto).
  - rewrite (replaceSpans_absent _ 42 [42]) by (apply Hall; auto).
    rewrite (replaceSpans_lone _ 95 [95]) by (apply Hfree; auto).
    rewrite (replaceSpans_absent _ 42 []) by (apply Hall; auto).
    rewrite (replaceSpans_lone _ 95 []) by (apply Hfree; auto).
    by rewrite (replaceSpans_absent _ 96 []) by (apply Hall; auto).
  - rewrite (replaceSpans_absent _ 42 [42]) by (apply Hall; auto).
    rewrite (replaceSpans_absent _ 95 [95]) by (apply Hall; auto).
    rewrite (replaceSpans_absent _ 42 []) by (apply Hall; auto).
    rewrite (replaceSpans_absent _ 95 []) by (apply Hall; auto).
    by rewrite (replaceSpans_lone _ 96 []) by (apply Hfree; auto).
Qed.

Lemma stray_delimiter_is_literal_witness :
  Review.inlineMarkdown (lit "2 " ++ 42 :: lit " 3 < 7")
  = lit "2 " ++ 42 :: lit " 3 &lt; 7".
Proof.
  rewrite (stray_delimiter_is_literal (lit "2 ") (lit " 3 < 7") 42).
  - by vm_compute.
  - by left.
  - repeat constructor.
  - repeat constructor.
Defined.

(** ** MarkdownRenderer: block level, further *)

Section Blocks2.
Import Review.
Implicit Types (s line text : jsstring) (st : State).

Lemma split_single c line : c ∉ line -> split c line = [line].
Proof.
  unfold split. induction line as [|x line IH]; [done|].
  intros [Hx Hc]%not_elem_of_cons. cbn [splitOn].
  destruct (eqc x c) eqn:E; [apply eqc_true in E; done|]. by rewrite IH.
Qed.

Lemma noLT_no_LF s :
  Forall (fun c => isLineTerminator c = false) s -> LF ∉ s.
Proof.
  intros H Hin. rewrite Forall_forall in H. by specialize (H _ Hin).
Qed.

Lemma stripCR_noLT s :
  Forall (fun c => isLineTerminator c = false) s -> stripCR s = s.
Proof.
  intros H. unfold stripCR.
  destruct (reverse s) as [|c enil] eqn:E; [done|].
  destruct (eqc c CR) eqn:Ec; [|done]. apply eqc_true in Ec as ->.
  rewrite Forall_forall in H. specialize (H CR).
  assert (Hin : CR ∈ s).
  { rewrite <- (reverse_involutive s), E, reverse_cons.
    apply elem_of_app. right. apply list_elem_of_here. }
  by specialize (H Hin).
Qed.

Lemma dropWhile_stop f a c b :
  f c = false -> dropWhile f (a ++ c :: b) <> [].
Proof.
  intros Hc. induction a as [|x a IH]; cbn [app dropWhile].
  - by rewrite Hc.
  - by destruct (f x).
Qed.

Lemma trim_nonempty c s : isSpace c = false -> trim (c :: s) <> [].
Proof.
  intros Hc. unfold trim, trimStart, trimEnd. cbn [dropWhile]. rewrite Hc.
  rewrite reverse_cons. intros H.
  apply (f_equal reverse) in H. rewrite reverse_involutive in H.
  by apply (dropWhile_stop isSpace (reverse s) c []) in H.
Qed.

Lemma blank_head s c :
  trim s = [] -> head s = Some c -> isSpace c = true.
Proof.
  intros Hblank Hhead. destruct s as [|x s]; [done|].
  injection Hhead as ->. destruct (isSpace c) eqn:E; [done|].
  by apply (trim_nonempty c s) in E.
Qed.

Lemma dropWhile_all f a b :
  Forall (fun c => f c = true) a ->
  (forall c, head b = Some c -> f c = false) ->
  dropWhile f (a ++ b) = b.
Proof.
  intros Ha Hb. induction Ha as [|x a Hx Ha IH]; cbn [app dropWhile].
  - destruct b as [|c b]; [done|]. cbn [dropWhile]. by rewrite (Hb c).
  - by rewrite Hx.
Qed.

Lemma countHashes_replicate k rest :
  (forall c, head rest = Some c -> c <> 35) ->
  countHashes (replicate k 35 ++ rest) = k.
Proof.
  intros Hrest. induction k as [|k IH]; cbn [replicate app countHashes].
  - destruct rest as [|c rest]; [done|]. cbn [countHashes].
    destruct (eqc c 35) eqn:E; [|done]. apply eqc_true in E.
    by specialize (Hrest c eq_refl).
  - by rewrite IH.
Qed.

Lemma spacesThenRest_some spaces text :
  spaces <> [] -> Forall (fun c => isSpace c = true) spaces ->
  (forall c, head text = Some c -> isSpace c = false) ->
  Forall (fun c => isLineTerminator c = false) text ->
  spacesThenRest (spaces ++ text) = Some text.
Proof.
  intros Hne Hsp Hhead Hlt. unfold spacesThenRest.
  destruct spaces as [|c spaces]; [done|].
  pose proof Hsp as Hall. apply Forall_cons in Hsp as [Hc _].
  rewrite <- app_comm_cons, Hc, app_comm_cons, (dropWhile_all _ _ _ Hall Hhead).
  replace (forallb anyButLineTerminator text) with true; [done|].
  symmetry. apply forallb_all. eapply Forall_impl; [exact Hlt|].
  intros x Hx. unfold anyButLineTerminator. by rewrite Hx.
Qed.

Lemma flushList_settled st : settled st -> flushList st = st.
Proof. intros [_ Hb]. unfold flushList. by rewrite Hb. Qed.

Lemma push_settled block st : settled st -> settled (push block st).
Proof. intros [? ?]. by split. Qed.

Lemma finish_settled st : settled st -> finish st = join [LF] (html st).
Proof.
  intros [Hc Hb]. rewrite finish_flushes. unfold pendingList, pendingCode.
  by rewrite Hc, Hb, !app_nil_r.
Qed.

Lemma space_not (c x : N) : isSpace c = true -> isSpace x = false -> eqc c x = false.
Proof.
  intros Hc Hx. destruct (eqc c x) eqn:E; [|done].
  apply eqc_true in E as ->. congruence.
Qed.

Lemma processLine_blank st rawLine :
  settled st -> trim (stripCR rawLine) = [] -> processLine st rawLine = st.
Proof.
  intros Hst Hblank. pose proof Hst as [Hc Hb]. unfold processLine. cbv zeta.
  set (line := stripCR rawLine) in *.
  assert (Hhead : forall c, head line = Some c -> isSpace c = true)
    by (intros c; by apply blank_head).
  assert (Hfence : startsWith (lit "```") line = false).
  { destruct line as [|c l]; [done|]. change (lit "```") with [96; 96; 96].
    cbn [startsWith]. destruct (eqc 96 c) eqn:E; [|done].
    apply eqc_true in E as <-. by specialize (Hhead 96 eq_refl). }
  rewrite Hfence, Hc.
  assert (Hheading : matchHeading line = None).
  { unfold matchHeading. destruct line as [|c l]; [done|]. cbn [countHashes].
    by rewrite (space_not c 35 (Hhead c eq_refl) eq_refl). }
  assert (Hitem : matchListItem line = None).
  { unfold matchListItem. destruct line as [|c l]; [done|].
    by rewrite (space_not c 45 (Hhead c eq_refl) eq_refl),
               (space_not c 42 (Hhead c eq_refl) eq_refl),
               (space_not c 43 (Hhead c eq_refl) eq_refl). }
  rewrite Hheading, Hitem, (flushList_settled _ Hst).
  by rewrite bool_decide_eq_true_2.
Qed.

End Blocks2.

Section Blocks3.
Import Review.
Implicit Types (s line text : jsstring) (st : State).

Lemma one_line markdown :
  LF ∉ markdown ->
  markdownToHtml markdown = finish (processLine initial markdown).
Proof.
  intros H. unfold markdownToHtml. by rewrite (split_single _ _ H).
Qed.

Lemma hashes_line_facts k rest :
  (1 <= k)%nat ->
  startsWith (lit "```") (replicate k 35 ++ rest) = false
  /\ matchListItem (replicate k 35 ++ rest) = None
  /\ startsWith (lit ">") (replicate k 35 ++ rest) = false
  /\ trim (replicate k 35 ++ rest) <> [].
Proof.
  intros Hk. destruct k as [|k]; [lia|]. cbn [replicate app].
  repeat split; try done. by apply trim_nonempty.
Qed.

Lemma hashes_noLT k s :
  Forall (fun c => isLineTerminator c = false) s ->
  Forall (fun c => isLineTerminator c = false) (replicate k 35 ++ s).
Proof.
  intros Hs. apply Forall_app. split; [|done].
  apply Forall_forall. intros c Hc. by apply elem_of_replicate in Hc as [-> _].
Qed.

Lemma processLine_heading st level spaces text :
  inCode st = false ->
  (1 <= level <= 6)%nat ->
  spaces <> [] -> Forall (fun c => isSpace c = true) spaces ->
  Forall (fun c => isLineTerminator c = false) (spaces ++ text) ->
  (forall c, head text = Some c -> isSpace c = false) ->
  processLine st (replicate level 35 ++ spaces ++ text)
  = push (headingBlock level text) (flushList st).
Proof.
  intros Hc Hlevel Hne Hsp Hlt Hhead. unfold processLine. cbv zeta.
  rewrite (stripCR_noLT _ (hashes_noLT level _ Hlt)).
  destruct (hashes_line_facts level (spaces ++ text)) as (-> & _); [lia|].
  rewrite Hc. unfold matchHeading. cbv zeta.
  rewrite countHashes_replicate.
  2:{ destruct spaces as [|c sp]; [done|]. intros x [= <-].
      apply Forall_cons in Hsp as [Hx _]. intros ->. done. }
  replace ((1 <=? level)%nat && (level <=? 6)%nat) with true
    by (symmetry; apply andb_true_iff; split; apply Nat.leb_le; lia).
  rewrite drop_app_length' by (by rewrite length_replicate).
  apply Forall_app in Hlt as [_ Hlt].
  by rewrite (spacesThenRest_some spaces text).
Qed.

Lemma processLine_paragraph st line :
  inCode st = false ->
  Forall (fun c => isLineTerminator c = false) line ->
  startsWith (lit "```") line = false ->
  matchHeading line = None -> matchListItem line = None ->
  trim line <> [] -> startsWith (lit ">") line = false ->
  processLine st line
  = push (lit "<p>" ++ inlineMarkdown line ++ lit "</p>") (flushList st).
Proof.
  intros Hc Hlt Hf Hh Hi Ht Hq. unfold processLine. cbv zeta.
  rewrite (stripCR_noLT _ Hlt), Hf, Hc, Hh, Hi, Hq.
  by rewrite bool_decide_eq_false_2.
Qed.

Lemma stripCR_last s :
  (forall c, last s = Some c -> c <> CR) -> stripCR s = s.
Proof.
  intros Hlast. unfold stripCR.
  destruct (reverse s) as [|c enil] eqn:E; [done|].
  destruct (eqc c CR) eqn:Ec; [|done]. apply eqc_true in Ec as ->.
  exfalso. apply (Hlast CR); [|done].
  rewrite <- (reverse_involutive s), E, reverse_cons. apply last_snoc.
Qed.

(** A line that, its trailing CR removed, begins with [>]. *)
Lemma processLine_quote st rawLine tail :
  inCode st = false ->
  stripCR rawLine = 62 :: tail ->
  processLine st rawLine
  = push (lit "<blockquote>" ++ inlineMarkdown (stripQuoteMark (62 :: tail))
          ++ lit "</blockquote>") (flushList st).
Proof.
  intros Hc Hline. unfold processLine. cbv zeta. rewrite Hline.
  change (startsWith (lit "```") (62 :: tail)) with false. cbv iota.
  rewrite Hc.
  change (matchHeading (62 :: tail)) with (@None (nat * jsstring)).
  change (matchListItem (62 :: tail)) with (@None jsstring). cbv iota.
  rewrite bool_decide_eq_false_2 by (by apply trim_nonempty).
  done.
Qed.

Lemma quote_without_space text :
  Forall (fun c => isLineTerminator c = false) text ->
  (forall c, head text = Some c -> isSpace c = false) ->
  markdownToHtml (62 :: text)
  = lit "<blockquote>" ++ inlineMarkdown text ++ lit "</blockquote>".
Proof.
  intros Hlt Hhead.
  assert (Hline : Forall (fun c => isLineTerminator c = false) (62 :: text))
    by (by constructor).
  rewrite one_line by (by apply noLT_no_LF).
  rewrite (processLine_quote _ _ text) by (done || by apply stripCR_noLT). cbn.
  destruct text as [|c text]; [done|]. by rewrite (Hhead c).
Qed.

(** After [>] one character of the class [\s] goes, whichever it is. *)
Lemma quote_with_space w rest :
  isSpace w = true -> w <> LF ->
  Forall (fun c => isLineTerminator c = false) rest ->
  markdownToHtml (62 :: w :: rest)
  = lit "<blockquote>" ++ inlineMarkdown rest ++ lit "</blockquote>".
Proof.
  intros Hw Hlf Hlt.
  assert (Hno : LF ∉ 62 :: w :: rest).
  { rewrite !not_elem_of_cons. split; [done|]. split; [done|].
    by apply noLT_no_LF. }
  rewrite (one_line _ Hno).
  destruct (decide (w = CR /\ rest = [])) as [[-> ->]|Hother].
  - by vm_compute.
  - assert (Hstrip : stripCR (62 :: w :: rest) = 62 :: w :: rest).
    { apply stripCR_last. intros c Hc ->. destruct rest as [|r rs].
      - cbn in Hc. injection Hc as ->. by apply Hother.
      - change (last (62 :: w :: r :: rs)) with (last (r :: rs)) in Hc.
        apply last_Some_elem_of in Hc. rewrite Forall_forall in Hlt.
        by specialize (Hlt _ Hc). }
    rewrite (processLine_quote _ _ (w :: rest)) by done. cbn.
    by rewrite Hw.
Qed.

End Blocks3.

(** X20.  A text of blank lines only renders to the empty string. *)
Theorem blank_text_renders_nothing (markdown : jsstring) :
  Forall (fun l => trim (Review.stripCR l) = []) (split LF markdown) ->
  Review.markdownToHtml markdown = [].
Proof.
  intros Hall. unfold Review.markdownToHtml.
  assert (Hfold : forall lines,
            Forall (fun l => trim (Review.stripCR l) = []) lines ->
            foldl Review.processLine Review.initial lines = Review.initial).
  { induction 1 as [|l lines Hl Hlines IH]; [done|]. cbn [foldl].
    by rewrite processLine_blank. }
  by rewrite Hfold.
Qed.

Lemma blank_text_renders_nothing_witness :
  Review.markdownToHtml ([32; 9; LF; CR; LF] ++ lit "  ") = [].
Proof.
  apply blank_text_renders_nothing. vm_compute. repeat constructor.
Defined.

(** X21.  A heading line, one to six [#], then white space, then the
    text, renders to the heading element of that level around the
    inline-formatted text.  With seven or more [#] there is no heading:
    the whole line becomes a paragraph. *)
Theorem heading_levels (level : nat) (spaces text : jsstring) :
  (1 <= level)%nat ->
  spaces <> [] -> Forall (fun c => isSpace c = true) spaces ->
  Forall (fun c => isLineTerminator c = false) (spaces ++ text) ->
  (forall c, head text = Some c -> isSpace c = false) ->
  let line := replicate level 35 ++ spaces ++ text in
  let n := numberToString (Some (Z.of_nat level)) in
  ((level <= 6)%nat ->
   Review.markdownToHtml line
   = lit "<h" ++ n ++ lit ">" ++ Review.inlineMarkdown text
     ++ lit "</h" ++ n ++ lit ">")
  /\ ((7 <= level)%nat ->
      Review.markdownToHtml line
      = lit "<p>" ++ Review.inlineMarkdown line ++ lit "</p>").
Proof.
  intros Hlevel Hne Hsp Hlt Hhead line n.
  assert (Hlf : LF ∉ line) by apply noLT_no_LF, hashes_noLT, Hlt.
  rewrite (one_line _ Hlf). split; intros Hk.
  - subst line. rewrite processLine_heading by (done || lia). done.
  - destruct (hashes_line_facts level (spaces ++ text) Hlevel)
      as (Hf & Hi & Hq & Ht).
    subst line. rewrite processLine_paragraph; try done.
    + by apply hashes_noLT.
    + unfold Review.matchHeading. cbv zeta. rewrite countHashes_replicate.
      2:{ destruct spaces as [|c sp]; [done|]. intros x [= <-].
          apply Forall_cons in Hsp as [Hx _]. intros ->. done. }
      replace (level <=? 6)%nat with false
        by (symmetry; apply Nat.leb_gt; lia).
      by rewrite andb_false_r.
Qed.

Lemma heading_levels_witness :
  Review.markdownToHtml (replicate 3 35 ++ lit "  " ++ lit "Notes & *more*")
  = lit "<h3>Notes &amp; <em>more</em></h3>".
Proof.
  rewrite (proj1 (heading_levels 3 (lit "  ") (lit "Notes & *more*")
                    ltac:(lia) ltac:(done) ltac:(repeat constructor)
                    ltac:(repeat constructor)
                    ltac:(by intros c [= <-])) ltac:(lia)).
  by vm_compute.
Defined.

Section Fences.
Import Review.

Lemma processLine_closes st rawLine :
  inCode st = true -> fence rawLine = true ->
  processLine st rawLine
  = {| html := html st ++ [codeBlock (codeLines st)]; inCode := false;
       codeLines := []; listBuffer := listBuffer st |}.
Proof.
  unfold fence, processLine. intros Hc Hf. cbv zeta. rewrite Hf, Hc.
  unfold flushCode. by rewrite Hc.
Qed.

(** An opening fence, the lines inside and the closing fence, from a state
    outside code: one code block is emitted and the list buffer is left
    alone. *)
Lemma foldl_fenced st opener inside closer :
  inCode st = false -> codeLines st = [] ->
  fence opener = true -> Forall (fun l => fence l = false) inside ->
  fence closer = true ->
  foldl processLine st (opener :: inside ++ [closer])
  = {| html := html st ++ [codeBlock (stripCR <$> inside)]; inCode := false;
       codeLines := []; listBuffer := listBuffer st |}.
Proof.
  intros Hc Hcl Ho Hin Hclose. cbn [foldl].
  rewrite (processLine_opens _ _ Hc Ho), foldl_app.
  rewrite (foldl_in_code inside) by done. cbn [foldl].
  rewrite processLine_closes by done. cbn. by rewrite Hcl.
Qed.

End Fences.

(** X22.  A fenced block renders to one code block whose content is the
    lines between the fences, joined by line breaks and escaped; no inline
    markup is applied to it, and what follows the backticks on the fence
    lines is dropped. *)
Theorem fenced_block_is_escaped_verbatim
        (markdown opener closer : jsstring) (inside : list jsstring) :
  split LF markdown = opener :: inside ++ [closer] ->
  fence opener = true -> fence closer = true ->
  Forall (fun l => fence l = false) inside ->
  Review.markdownToHtml markdown
  = lit "<pre><code>"
    ++ Review.escapeHtml (join [LF] (Review.stripCR <$> inside))
    ++ lit "</code></pre>".
Proof.
  intros Hsplit Ho Hc Hin. unfold Review.markdownToHtml. rewrite Hsplit.
  rewrite (foldl_fenced Review.initial) by done.
  rewrite finish_settled by done. done.
Qed.

Lemma fenced_block_is_escaped_verbatim_witness :
  Review.markdownToHtml
    (lit "```js" ++ [LF] ++ lit "if (a < b) **x**" ++ [LF] ++ [LF]
     ++ lit "# no heading" ++ [LF] ++ lit "```")
  = lit "<pre><code>if (a &lt; b) **x**" ++ [LF] ++ [LF]
    ++ lit "# no heading</code></pre>".
Proof.
  rewrite (fenced_block_is_escaped_verbatim _ (lit "```js") (lit "```")
             [lit "if (a < b) **x**"; []; lit "# no heading"]).
  - by vm_compute.
  - by vm_compute.
  - done.
  - done.
  - repeat constructor.
Defined.

(** X23.  A fence does not flush the list buffer.  When a fenced block
    follows list items directly, the code block is emitted at the closing
    fence while the items are still buffered: the output has the code block
    first and the list second, against the order of the text. *)
Theorem fence_overtakes_pending_list
        (markdown opener closer : jsstring)
        (itemLines items inside : list jsstring) :
  split LF markdown = itemLines ++ opener :: inside ++ [closer] ->
  items <> [] ->
  Forall2 (fun l item => Review.matchListItem (Review.stripCR l) = Some item)
          itemLines items ->
  fence opener = true -> fence closer = true ->
  Forall (fun l => fence l = false) inside ->
  Review.markdownToHtml markdown
  = Review.codeBlock (Review.stripCR <$> inside) ++ [LF]
    ++ Review.listBlock (Review.inlineMarkdown <$> items).
Proof.
  intros Hsplit Hne Hitems Ho Hc Hin. unfold Review.markdownToHtml.
  rewrite Hsplit, foldl_app.
  rewrite (foldl_list_items _ _ Review.initial eq_refl Hitems).
  rewrite foldl_fenced by done. rewrite finish_flushes.
  unfold pendingList, pendingCode. cbn.
  destruct items as [|item items]; [done|]. cbn [fmap list_fmap].
  by rewrite app_nil_r.
Qed.

Lemma fence_overtakes_pending_list_witness :
  Review.markdownToHtml
    (lit "- first" ++ [LF] ++ lit "```" ++ [LF] ++ lit "code" ++ [LF] ++ lit "```")
  = lit "<pre><code>code</code></pre>" ++ [LF] ++ lit "<ul><li>first</li></ul>".
Proof.
  rewrite (fence_overtakes_pending_list _ (lit "```") (lit "```")
             [lit "- first"] [lit "first"] [lit "code"]).
  - by vm_compute.
  - by vm_compute.
  - done.
  - repeat constructor.
  - done.
  - done.
  - repeat constructor.
Defined.

(** X24.  A line that begins with [>] renders to a blockquote around the
    inline-formatted rest, the [>] and at most one white-space character
    after it removed: whichever character of the class [\s] follows the
    [>], a space, a tab, a no-break space or any other, it goes, and a
    second one stays. *)
Theorem blockquote_line (text : jsstring) :
  Forall (fun c => isLineTerminator c = false) text ->
  (forall c, head text = Some c -> isSpace c = false) ->
  Review.markdownToHtml (62 :: text)
  = lit "<blockquote>" ++ Review.inlineMarkdown text ++ lit "</blockquote>"
  /\ (forall w,
        isSpace w = true -> w <> LF ->
        Review.markdownToHtml (62 :: w :: text)
        = lit "<blockquote>" ++ Review.inlineMarkdown text
          ++ lit "</blockquote>")
  /\ (forall w1 w2,
        isSpace w1 = true -> w1 <> LF ->
        isSpace w2 = true -> isLineTerminator w2 = false ->
        Review.markdownToHtml (62 :: w1 :: w2 :: text)
        = lit "<blockquote>" ++ Review.inlineMarkdown (w2 :: text)
          ++ lit "</blockquote>").
Proof.
  intros Hlt Hhead. split; [by apply quote_without_space|]. split.
  - intros w Hw Hlf. by apply quote_with_space.
  - intros w1 w2 Hw1 Hlf Hw2 Hlt2. apply quote_with_space; [done|done|].
    by constructor.
Qed.

Lemma blockquote_line_witness :
  Review.markdownToHtml (62 :: 9 :: lit "so **true**")
  = lit "<blockquote>so <strong>true</strong></blockquote>"
  /\ Review.markdownToHtml (62 :: 0xA0 :: 32 :: lit "x")
     = lit "<blockquote> x</blockquote>".
Proof.
  split.
  - rewrite (proj1 (proj2 (blockquote_line (lit "so **true**")
                             ltac:(repeat constructor)
                             ltac:(by intros c [= <-]))) 9 eq_refl
               ltac:(done)).
    by vm_compute.
  - rewrite (proj2 (proj2 (blockquote_line (lit "x")
                             ltac:(repeat constructor)
                             ltac:(by intros c [= <-]))) 0xA0 32 eq_refl
               ltac:(done) eq_refl eq_refl).
    by vm_compute.
Defined.

Section Paragraphs.
Import Review.

Lemma neq_eqc (a b : N) : a <> b -> eqc a b = false.
Proof. intros H. destruct (eqc a b) eqn:E; [|done]. by apply eqc_true in E. Qed.

Lemma processLine_ordinary st line :
  settled st -> ordinaryLine line ->
  processLine st line
  = push (lit "<p>" ++ inlineMarkdown line ++ lit "</p>") st.
Proof.
  intros Hst (Hlt & c & rest & -> & Hsp & H96 & H35 & H45 & H42 & H43 & H62).
  pose proof Hst as [Hc _].
  rewrite processLine_paragraph, (flushList_settled _ Hst); try done.
  - change (lit "```") with [96; 96; 96]. cbn [startsWith].
    by rewrite (neq_eqc 96 c).
  - unfold matchHeading. cbn [countHashes]. by rewrite (neq_eqc c 35).
  - unfold matchListItem.
    by rewrite (neq_eqc c 45), (neq_eqc c 42), (neq_eqc c 43).
  - by apply trim_nonempty.
  - change (lit ">") with [62]. cbn [startsWith]. by rewrite (neq_eqc 62 c).
Qed.

Lemma foldl_ordinary lines st :
  settled st -> Forall ordinaryLine lines ->
  settled (foldl processLine st lines)
  /\ html (foldl processLine st lines)
     = html st
       ++ ((fun l => lit "<p>" ++ inlineMarkdown l ++ lit "</p>") <$> lines).
Proof.
  intros Hst Hall. revert st Hst.
  induction Hall as [|l lines Hl Hall IH]; intros st Hst.
  - split; [done|]. cbn. by rewrite app_nil_r.
  - cbn [foldl]. rewrite (processLine_ordinary _ _ Hst Hl).
    destruct (IH _ (push_settled (lit "<p>" ++ inlineMarkdown l ++ lit "</p>")
                      _ Hst)) as [Hs Hh].
    split; [done|]. rewrite Hh. cbn. by rewrite <- app_assoc.
Qed.

End Paragraphs.

(** X25.  Lines of plain running text render to one paragraph each, in
    the order of the text, joined by line breaks: consecutive lines are
    not merged into one paragraph. *)
Theorem ordinary_lines_are_paragraphs (markdown : jsstring) :
  Forall ordinaryLine (split LF markdown) ->
  Review.markdownToHtml markdown
  = join [LF] ((fun l => lit "<p>" ++ Review.inlineMarkdown l ++ lit "</p>")
               <$> split LF markdown).
Proof.
  intros Hall. unfold Review.markdownToHtml.
  destruct (foldl_ordinary _ Review.initial ltac:(done) Hall) as [Hs Hh].
  by rewrite (finish_settled _ Hs), Hh.
Qed.

Lemma ordinary_lines_are_paragraphs_witness :
  Review.markdownToHtml (lit "One line." ++ [LF] ++ lit "Another *one*.")
  = lit "<p>One line.</p>" ++ [LF] ++ lit "<p>Another <em>one</em>.</p>".
Proof.
  rewrite ordinary_lines_are_paragraphs; [by vm_compute|].
  change (split LF (lit "One line." ++ [LF] ++ lit "Another *one*."))
    with [lit "One line."; lit "Another *one*."].
  repeat (apply Forall_cons; split; [|]); [| |by apply Forall_nil].
  - split; [repeat constructor|]. eexists _, _.
    split; [reflexivity|]. repeat split; done.
  - split; [repeat constructor|]. eexists _, _.
    split; [reflexivity|]. repeat split; done.
Defined.

(** ** Discovery of the review files *)

Section DiscoveryFacts.
Import Discovery.
Implicit Types (s run : jsstring) (files seen : list jsstring).

Lemma splitOn_pieces sep s :
  Forall (Forall (fun c => sep c = false)) (splitOn sep s).
Proof.
  induction s as [|x s IH]; cbn [splitOn]; [by repeat constructor|].
  destruct (sep x) eqn:E; [by constructor|].
  destruct (splitOn sep s) as [|piece more]; [by repeat constructor|].
  apply Forall_cons in IH as [Hp Hm]. constructor; [by constructor|done].
Qed.

Lemma lastSegment_no_slash s : 47 ∉ lastSegment s.
Proof.
  unfold lastSegment, split.
  pose proof (splitOn_pieces (fun x => eqc x 47) s) as Hall.
  destruct (last (splitOn (fun x => eqc x 47) s)) as [piece|] eqn:E;
    [|apply not_elem_of_nil].
  cbn [default]. apply last_Some_elem_of in E.
  rewrite Forall_forall in Hall. specialize (Hall _ E).
  intros Hin. rewrite Forall_forall in Hall. specialize (Hall _ Hin).
  by rewrite (proj2 (eqc_true 47 47) eq_refl) in Hall.
Qed.

Lemma lastSegment_whole s : 47 ∉ s -> lastSegment s = s.
Proof. intros H. unfold lastSegment. by rewrite (split_single _ _ H). Qed.

Lemma lastSegment_cons x s :
  x = 47 \/ 47 ∈ s -> lastSegment (x :: s) = lastSegment s.
Proof.
  intros Hsep. unfold lastSegment, split. cbn [splitOn].
  pose proof (splitOn_nonempty (fun y => eqc y 47) s) as Hne.
  destruct (eqc x 47) eqn:E.
  - destruct (splitOn _ s) as [|p more]; [done|]. done.
  - destruct Hsep as [->|Hin]; [done|].
    destruct (splitOn (fun y => eqc y 47) s) as [|p more] eqn:Hs; [done|].
    destruct more as [|q more]; [|done].
    exfalso. pose proof (splitOn_pieces (fun y => eqc y 47) s) as Hall.
    rewrite Hs in Hall. apply Forall_cons in Hall as [Hp _].
    assert (Hjoin : join [47] (split 47 s) = s) by apply join_split.
    unfold split in Hjoin. rewrite Hs in Hjoin. cbn in Hjoin. subst p.
    rewrite Forall_forall in Hp. specialize (Hp _ Hin).
    by rewrite (proj2 (eqc_true 47 47) eq_refl) in Hp.
Qed.

Lemma endsWithMd_cons x s :
  (3 <= length s)%nat -> endsWithMd (x :: s) = endsWithMd s.
Proof.
  intros Hlen. unfold endsWithMd. rewrite reverse_cons.
  destruct (reverse s) as [|d [|m [|dot t]]] eqn:E; try done;
    apply (f_equal length) in E; rewrite length_reverse in E;
    simpl in E; lia.
Qed.

Lemma endsWithMd_three a b c :
  endsWithMd [a; b; c] = true -> a = 46 /\ b <> 47 /\ c <> 47.
Proof.
  unfold endsWithMd. cbn.
  rewrite !andb_true_iff, !orb_true_iff, !eqc_true.
  intros [[-> [-> | ->]] [-> | ->]]; done.
Qed.

Lemma endsWithMd_lastSegment s :
  endsWithMd s = true -> endsWithMd (lastSegment s) = true.
Proof.
  induction s as [|x s IH]; [done|]. intros Hmd.
  destruct (decide (47 ∈ x :: s)) as [Hin|Hnot];
    [|by rewrite lastSegment_whole].
  assert (Hsep : x = 47 \/ 47 ∈ s).
  { apply elem_of_cons in Hin as [<-|Hin]; auto. }
  rewrite (lastSegment_cons _ _ Hsep).
  destruct (decide (3 <= length s)%nat) as [Hlen|Hshort].
  - apply IH. by rewrite <- (endsWithMd_cons x s Hlen).
  - exfalso. destruct s as [|a [|b [|c s]]]; try done; [|simpl in Hshort; lia].
    apply endsWithMd_three in Hmd as (-> & Ha & Hb).
    destruct Hsep as [?|Hs]; [done|].
    apply elem_of_cons in Hs as [?|Hs]; [done|].
    apply elem_of_cons in Hs as [?|Hs]; [done|]. by apply elem_of_nil in Hs.
Qed.

Lemma matchHrefAt_md s run : matchHrefAt s = Some run -> endsWithMd run = true.
Proof.
  unfold matchHrefAt.
  destruct s as [|h [|r [|e [|f [|eq [|q rest]]]]]]; try done.
  destruct (_ && _ && _ && _ && _ && _); [|done]. cbv zeta.
  destruct (_ && _ && endsWithMd _) eqn:E; [|done].
  intros [= <-]. by apply andb_true_iff in E as [_ E].
Qed.

Lemma scanHrefs_md skip s :
  Forall (fun f => endsWithMd f = true /\ 47 ∉ f) (scanHrefs skip s).
Proof.
  revert skip. induction s as [|c s IH]; intros skip; [constructor|].
  cbn [scanHrefs]. destruct skip as [|k]; [|apply IH].
  destruct (matchHrefAt (c :: s)) as [run|] eqn:E; [|apply IH].
  constructor; [|apply IH]. split; [|apply lastSegment_no_slash].
  by apply endsWithMd_lastSegment, (matchHrefAt_md (c :: s)).
Qed.

Lemma dedupe_fold files seen :
  NoDup seen ->
  let out := foldl (fun seen x => if bool_decide (x ∈ seen) then seen
                                  else seen ++ [x]) seen files in
  NoDup out /\ forall x, x ∈ out <-> x ∈ seen \/ x ∈ files.
Proof.
  revert seen. induction files as [|f files IH]; intros seen Hnd; cbn.
  - split; [done|]. intros x. rewrite elem_of_nil. tauto.
  - case_bool_decide as Hin.
    + destruct (IH seen Hnd) as [H1 H2]. split; [done|].
      intros x. rewrite H2, elem_of_cons. split; [tauto|].
      intros [?|[->|?]]; auto.
    + assert (Hnd' : NoDup (seen ++ [f])).
      { apply NoDup_app. split; [done|]. split; [|apply NoDup_singleton].
        intros x Hx ->%list_elem_of_singleton. done. }
      destruct (IH _ Hnd') as [H1 H2]. split; [done|].
      intros x. rewrite H2, elem_of_app, list_elem_of_singleton, elem_of_cons.
      tauto.
Qed.

(** On a list without repetition, deduplication changes nothing. *)
Lemma dedupe_fold_fresh files seen :
  NoDup (seen ++ files) ->
  foldl (fun seen x => if bool_decide (x ∈ seen) then seen else seen ++ [x])
        seen files = seen ++ files.
Proof.
  revert seen. induction files as [|f files IH]; intros seen Hnd; cbn.
  - by rewrite app_nil_r.
  - pose proof Hnd as Hnd'. apply NoDup_app in Hnd as (_ & Hdis & _).
    rewrite bool_decide_eq_false_2.
    2:{ intros Hin. apply (Hdis _ Hin). by left. }
    rewrite IH; [by rewrite <- app_assoc|]. by rewrite <- app_assoc.
Qed.

End DiscoveryFacts.

(** X26.  What discovery hands on.  Every file name it returns ends in
    [.md] (in either case), holds no slash and is therefore not empty, and
    no name is returned twice; this holds whether the names came from the
    parsed anchors or from the pattern scan of the raw text. *)
Theorem discovered_names_are_md_files
        (anchorHrefs : jsstring -> option (list jsstring)) (html : jsstring) :
  NoDup (Discovery.extractMarkdownLinks anchorHrefs html)
  /\ Forall (fun f => Discovery.endsWithMd f = true /\ (47 ∉ f) /\ f <> [])
            (Discovery.extractMarkdownLinks anchorHrefs html).
Proof.
  unfold Discovery.extractMarkdownLinks, Discovery.dedupe. cbv zeta.
  set (files := match Discovery.fromAnchors anchorHrefs html with
                | [] => Discovery.scanHrefs 0 html
                | _ :: _ => Discovery.fromAnchors anchorHrefs html
                end).
  destruct (dedupe_fold files [] (NoDup_nil_2)) as [Hnd Hin].
  split; [exact Hnd|].
  assert (Hfiles : Forall (fun f => Discovery.endsWithMd f = true /\ 47 ∉ f)
                          files).
  { subst files.
    destruct (Discovery.fromAnchors anchorHrefs html) as [|f0 fs] eqn:E;
      [apply scanHrefs_md|].
    rewrite <- E. unfold Discovery.fromAnchors.
    destruct (anchorHrefs html) as [hrefs|]; [|constructor].
    apply Forall_fmap, Forall_forall. intros href Hhref.
    apply list_elem_of_filter in Hhref as [Hmd _]. cbn.
    split; [by apply endsWithMd_lastSegment|apply lastSegment_no_slash]. }
  apply Forall_forall. intros f Hf. apply Hin in Hf as [Hf|Hf];
    [by apply elem_of_nil in Hf|].
  rewrite Forall_forall in Hfiles. destruct (Hfiles _ Hf) as [Hmd Hslash].
  split; [done|]. split; [done|]. by intros ->.
Qed.

(** X27.  Deduplication keeps the order of discovery: names that already
    differ come back as they were found, anchors in document order. *)
Theorem distinct_anchors_keep_their_order
        (anchorHrefs : jsstring -> option (list jsstring)) (html : jsstring)
        (hrefs : list jsstring) :
  anchorHrefs html = Some hrefs ->
  hrefs <> [] ->
  Forall (fun href => Discovery.endsWithMd href = true) hrefs ->
  NoDup (Discovery.lastSegment <$> hrefs) ->
  Discovery.extractMarkdownLinks anchorHrefs html
  = Discovery.lastSegment <$> hrefs.
Proof.
  intros Hdom Hne Hmd Hnd.
  unfold Discovery.extractMarkdownLinks, Discovery.fromAnchors. cbv zeta.
  rewrite Hdom.
  assert (Hfilter : base.filter (fun href => Discovery.endsWithMd href = true)
                                hrefs = hrefs).
  { clear Hdom Hne Hnd. induction Hmd as [|h hs Hh Hhs IH]; [done|].
    by rewrite filter_cons_True, IH. }
  rewrite Hfilter. destruct hrefs as [|h hs]; [done|].
  cbn [fmap list_fmap]. unfold Discovery.dedupe.
  by rewrite dedupe_fold_fresh.
Qed.

Lemma distinct_anchors_keep_their_order_witness :
  Discovery.extractMarkdownLinks
    (fun _ => Some [lit "reviews/2024-02-01_b.md"; lit "2024-01-01_a.MD"])
    (lit "<html>")
  = [lit "2024-02-01_b.md"; lit "2024-01-01_a.MD"].
Proof.
  apply (distinct_anchors_keep_their_order _ _
           [lit "reviews/2024-02-01_b.md"; lit "2024-01-01_a.MD"]).
  - done.
  - done.
  - repeat constructor.
  - apply (bool_decide_unpack _). by vm_compute.
Defined.

(** ** RelativeDateFormatter: never an empty text for a value *)

Lemma numberToString_phrase_nonempty (n : option Z) (suffix : jsstring) :
  suffix <> [] -> numberToString n ++ suffix <> [].
Proof. intros Hs H. by apply app_eq_nil in H as [_ ?]. Qed.

Lemma relative_nonempty env n unit : ReviewsList.relative env n unit <> [].
Proof.
  rewrite relative_locale.
  destruct (activeLang env), unit; by apply numberToString_phrase_nonempty.
Qed.

(** X28.  The formatted date is empty exactly when the value is: an
    empty value gives the empty string, and every other value gives some
    text, be it a phrase or the value itself. *)
Theorem formatted_date_empty_iff (env : Env) (value : jsstring) :
  ReviewsList.formatRelativeDate env value = [] <-> value = [].
Proof.
  unfold ReviewsList.formatRelativeDate. case_bool_decide as Hv; [done|].
  split; [|done]. destruct (ReviewsList.parseDate env value); [|done].
  unfold ReviewsList.bucket.
  destruct (ReviewsList.diffDaysOf env z) as [dd|];
    [|intros H; by apply relative_nonempty in H].
  repeat (match goal with |- context [if ?b then _ else _] => destruct b end);
    try done; intros H; by apply relative_nonempty in H.
Qed.

(** ** The detail page *)

Section PageFacts.
Import DetailPage.
Context (env : Env) (present : jsstring -> bool).

Lemma detail_title_nonempty meta filename :
  filename <> [] ->
  FrontMatter.propertyOr meta "title" (Review.deriveTitleFromFilename filename)
  <> [].
Proof.
  intros Hname. unfold FrontMatter.propertyOr.
  destruct (meta !! lit "title") as [[|c v]|]; try done.
  - unfold Review.deriveTitleFromFilename. by destruct (join _ _).
  - unfold Review.deriveTitleFromFilename. by destruct (join _ _).
Qed.

Lemma showError_onError message : Forall onError (showError present message).
Proof.
  unfold showError. destruct (present _); repeat constructor.
Qed.

Lemma setText_target id value :
  id <> lit "review-error" ->
  Forall (fun e => ~ onError e) (setText present id value).
Proof.
  intros Hid. unfold setText. destruct (_ && _); [|constructor].
  constructor; [|constructor]. unfold onError. cbn. by intros [= ->].
Qed.

Lemma renderHeader_shape meta filename :
  filename <> [] ->
  exists title rest,
    renderHeader present meta filename = SetDocumentTitle title :: rest
    /\ title <> []
    /\ title = FrontMatter.propertyOr meta "title"
                 (Review.deriveTitleFromFilename filename)
    /\ Forall (fun e => ~ onError e) rest.
Proof.
  intros Hname. unfold renderHeader. cbv zeta.
  eexists _, _. split; [reflexivity|]. split; [by apply detail_title_nonempty|].
  split; [done|]. rewrite !Forall_app.
  split; [by apply setText_target|]. split; [by apply setText_target|].
  destruct (_ ++ _); [constructor|]. by apply setText_target.
Qed.

Lemma renderContent_target markdown :
  Forall (fun e => ~ onError e) (renderContent present markdown).1.
Proof.
  unfold renderContent. destruct (present _); [|constructor].
  constructor; [|constructor]. unfold onError. cbn. by intros [= ?].
Qed.

End PageFacts.

(** X29.  The detail page shows an error or a review, never both.  Either
    every write goes to the error element and the script returns (no file
    parameter, a name the host cannot encode, a failed fetch; an empty
    document writes nothing at all), or the first write sets a non-empty
    document title and no write touches the error element. *)
Theorem page_shows_error_or_review
        (env : Env) (present : jsstring -> bool) (fileParam : option jsstring) :
  let result := DetailPage.initReviewPage env present fileParam in
  (Forall onError result.1 /\ result.2 = DetailPage.Returned)
  \/ (exists title rest,
        result.1 = DetailPage.SetDocumentTitle title :: rest
        /\ title <> []
        /\ Forall (fun e => ~ onError e) rest).
Proof.
  unfold DetailPage.initReviewPage.
  destruct fileParam as [[|c name]|];
    [left; split; [apply showError_onError|done] |
    |left; split; [apply showError_onError|done]].
  unfold DetailPage.fetchMarkdown.
  destruct (encodeURIComponent env (c :: name)) as [encoded|];
    [|left; split; [apply showError_onError|done]].
  destruct (fetchText env _) as [[|t text]|];
    [left; by split | |left; split; [apply showError_onError|done]].
  cbv zeta. right.
  destruct (renderHeader_shape present
              (Review.parseFrontMatter
                 (Review.frontmatter (Review.splitFrontMatter (t :: text))))
              (c :: name) ltac:(done)) as (title & rest & Hh & Hne & _ & Hrest).
  pose proof (renderContent_target present
                (Review.body (Review.splitFrontMatter (t :: text)))) as Hc.
  destruct (DetailPage.renderContent present _) as [content outcome].
  cbn [fst snd app] in *. rewrite Hh. exists title, (rest ++ content).
  split; [done|]. split; [done|]. by apply Forall_app.
Qed.

(** X30.  The front matter never reaches the page content.  For a fetched
    document made of a front-matter block and a body, the header is written
    from the block and the content written is the rendering of the body
    alone, as the last write.  When the page has no content element, the
    header is written all the same and the script then throws. *)
Theorem page_renders_body_only
        (env : Env) (present : jsstring -> bool)
        (filename encoded block body : jsstring) :
  filename <> [] ->
  encodeURIComponent env filename = Some encoded ->
  fetchText env (lit "reviews/" ++ encoded) = Some (assemble block body) ->
  ~ occurs closingDelimiter block ->
  let header :=
    DetailPage.renderHeader present (Review.parseFrontMatter block) filename in
  (present (lit "review-content") = true ->
   DetailPage.initReviewPage env present (Some filename)
   = (header ++ [DetailPage.SetInnerHTML (lit "review-content")
                   (Review.markdownToHtml body)],
      DetailPage.Returned))
  /\ (present (lit "review-content") = false ->
      DetailPage.initReviewPage env present (Some filename)
      = (header, DetailPage.Threw)).
Proof.
  intros Hname Henc Hfetch Hblock header.
  unfold DetailPage.initReviewPage, DetailPage.fetchMarkdown.
  destruct filename as [|c name]; [done|]. rewrite Henc, Hfetch.
  pose proof (splitFrontMatter_assembled block body Hblock) as Hsplit.
  assert (Hne : exists t text, assemble block body = t :: text)
    by (by eexists _, _).
  destruct Hne as (t & text & Hdoc). rewrite Hdoc in *. cbv zeta.
  rewrite Hsplit. cbn [Review.frontmatter Review.body].
  unfold DetailPage.renderContent. fold header.
  split; intros Hp; rewrite Hp; [done|]. by rewrite app_nil_r.
Qed.

Lemma page_renders_body_only_witness :
  let docs := [(lit "reviews/2024-01-15_a.md",
                assemble (lit "title: A") (lit "# T"))] in
  DetailPage.initReviewPage
    (SampleHost.host (2026, 11, 3)%Z (lit "ko") docs)
    (fun _ => true) (Some (lit "2024-01-15_a.md"))
  = ([DetailPage.SetDocumentTitle (lit "A");
      DetailPage.SetTextContent (lit "review-title") (lit "A");
      DetailPage.SetTextContent (lit "review-date") (lit "2024-01-15");
      DetailPage.SetInnerHTML (lit "review-content") (lit "<h1>T</h1>")],
     DetailPage.Returned).
Proof.
  intros docs.
  rewrite (proj1 (page_renders_body_only
                    (SampleHost.host (2026, 11, 3)%Z (lit "ko") docs)
                    (fun _ => true) (lit "2024-01-15_a.md")
                    (lit "2024-01-15_a.md") (lit "title: A") (lit "# T")
                    ltac:(done) ltac:(by vm_compute) ltac:(by vm_compute)
                    ltac:(apply lazyUntil_none; by vm_compute)) eq_refl).
  by vm_compute.
Defined.
